(** * phasetransitions-mcp-bridge: the stdio-to-HTTP relay of [index.js]

    A shallow embedding of [index.js] and the properties of its message
    relay: classification of input lines, normalisation of the upstream
    reply, the pending counter with the exit rule, and the credential.

    Conventions of the embedding.
    - A JavaScript string is a [string]; one character stands for one code
      unit, and [Buffer.from] is the identity on it (exact for ASCII text).
    - The runtime's [JSON.parse] and [JSON.stringify] and its numbers are
      the fields of the class [Platform]: the development holds for every
      implementation of them.  [Reference] is one implementation, for the
      integer fragment of JSON, on which concrete inputs are evaluated.
    - [JSON.stringify] throws a RangeError on a value nested too deep for
      the runtime's stack, a value [JSON.parse] may well have produced.
      What it returns, [JSON.parse] reads back; so the field
      [JSON_stringify], which is total, tells the two apart: it gives a
      text that [JSON_parse] reads where the built-in returns, and one
      that [JSON_parse] does not read where the built-in throws
      ([serialises], [stringify]).
    - [process.stdout.write] and [process.stderr.write] are taken to
      succeed: a reader that has closed its end of the pipe is outside
      the embedding.
    - [handleMessage] is an async function.  It is cut at its await: the
      part that runs when the line arrives is [handleMessage_start], the
      part that runs when the exchange settles is [handleMessage_resume].
      [fetch] and [res.text()] settle together, as one [Outcome]: the
      function does nothing between the two awaits but test the status. *)

From Stdlib Require Import String Ascii List ZArith NArith Lia Bool DecimalString.
Import ListNotations.
Local Open Scope string_scope.
Local Open Scope Z_scope.

(** ** JavaScript values *)

#[local] Set Warnings "-register-all".

Inductive JSON (number : Type) : Type :=
| JNull
| JBool (b : bool)
| JNumber (n : number)
| JString (s : string)
| JArray (items : list (JSON number))
| JObject (members : list (string * JSON number)).

Arguments JNull {number}.
Arguments JBool {number} b.
Arguments JNumber {number} n.
Arguments JString {number} s.
Arguments JArray {number} items.
Arguments JObject {number} members.

(** What the runtime supplies: its numbers with their truth value and
    literals, and the two JSON built-ins.  [JSON_parse] answers [None]
    where [JSON.parse] throws. *)
Class Platform : Type := {
  number : Type;
  number_ToBoolean : number -> bool;
  number_literal : Z -> number;
  JSON_parse : string -> option (JSON number);
  JSON_stringify : JSON number -> string
}.

Definition LF : string := String "010"%char EmptyString.

(** [s.substring(0, n)] *)
Definition substring0 (n : nat) (s : string) : string := String.substring 0 n s.

(** ** [Buffer.from(s).toString("base64")] *)

Definition base64_alphabet : string :=
  "ABCDEFGHIJKLMNOPQRSTUVWXYZabcdefghijklmnopqrstuvwxyz0123456789+/".

Definition sextet (n : N) : string :=
  match String.get (N.to_nat n) base64_alphabet with
  | Some c => String c EmptyString
  | None => "="
  end.

Fixpoint base64_of_bytes (bs : list N) : string :=
  match bs with
  | [] => ""
  | [a] =>
      let n := (a * 65536)%N in
      sextet (n / 262144) ++ sextet ((n / 4096) mod 64) ++ "=="
  | [a; b] =>
      let n := (a * 65536 + b * 256)%N in
      sextet (n / 262144) ++ sextet ((n / 4096) mod 64)
        ++ sextet ((n / 64) mod 64) ++ "="
  | a :: b :: c :: rest =>
      let n := (a * 65536 + b * 256 + c)%N in
      sextet (n / 262144) ++ sextet ((n / 4096) mod 64)
        ++ sextet ((n / 64) mod 64) ++ sextet (n mod 64)
        ++ base64_of_bytes rest
  end.

Definition base64 (s : string) : string :=
  base64_of_bytes (map N_of_ascii (list_ascii_of_string s)).

(** ** Objects as ordered member lists *)

Section Members.
Context {A : Type}.

Fixpoint member (key : string) (ms : list (string * A)) : option A :=
  match ms with
  | [] => None
  | (k, v) :: rest => if (k =? key)%string then Some v else member key rest
  end.

(** [o[key] = v]: an existing member keeps its place, a new one goes last. *)
Fixpoint assign (key : string) (v : A) (ms : list (string * A))
  : list (string * A) :=
  match ms with
  | [] => [(key, v)]
  | (k, w) :: rest =>
      if (k =? key)%string then (k, v) :: rest else (k, w) :: assign key v rest
  end.
End Members.

Section Bridge.
Context {platform : Platform}.

#[local] Abbreviation Json := (JSON number).

(** The value of a property read: [undefined] when there is none. *)
Inductive JSValue : Type :=
| undefined
| value (j : Json).

Record Error : Type := { message : string }.

Inductive Result (A : Type) : Type :=
| Returned (a : A)
| Threw (e : Error).
Arguments Returned {A} a.
Arguments Threw {A} e.

(** [o.key] for the keys the bridge reads, [method] and [id], which no
    prototype defines: reading them off [null] throws a TypeError, off an
    object gives the member or [undefined], off anything else gives
    [undefined]. *)
Definition Get (o : Json) (key : string) : Result JSValue :=
  match o with
  | JNull =>
      Threw {| message :=
        "Cannot read properties of null (reading '" ++ key ++ "')" |}
  | JObject members =>
      Returned match member key members with
               | Some v => value v
               | None => undefined
               end
  | _ => Returned undefined
  end.

Definition ToBoolean (v : JSValue) : bool :=
  match v with
  | undefined => false
  | value JNull => false
  | value (JBool b) => b
  | value (JNumber n) => number_ToBoolean n
  | value (JString s) => negb (s =? "")%string
  | value (JArray _) => true
  | value (JObject _) => true
  end.

(** [v === null || v === undefined] *)
Definition nullish (v : JSValue) : bool :=
  match v with
  | undefined => true
  | value JNull => true
  | value _ => false
  end.

(** [v != null], giving the value when it holds. *)
Definition not_null (v : JSValue) : option Json :=
  match v with
  | undefined => None
  | value JNull => None
  | value j => Some j
  end.

(** [parsed.id = v] followed only by [JSON.stringify(parsed)]: an object
    gets the member; an array gets a property that is not serialised; on
    a primitive the assignment does nothing (the script is not strict). *)
Definition assign_id (parsed : Json) (v : Json) : Json :=
  match parsed with
  | JObject members => JObject (assign "id" v members)
  | other => other
  end.

(** ** The process *)

Record HttpRequest : Type := {
  request_url : string;
  request_method : string;
  request_headers : list (string * string);
  request_body : string
}.

Record Process : Type := {
  url : string;                   (* const url *)
  authHeader : option string;     (* const authHeader, None for null *)
  pending : Z;                    (* let pending *)
  stdinClosed : bool;             (* let stdinClosed *)
  stdout : list string;           (* process.stdout.write calls, in order *)
  stderr : list string;           (* process.stderr.write calls, in order *)
  fetched : list HttpRequest;     (* fetch calls, in order *)
  awaiting : list Json;           (* msg of each handleMessage at its await *)
  exitCode : option Z             (* set once the process has exited *)
}.

Definition with_pending (n : Z) (p : Process) : Process :=
  {| url := url p; authHeader := authHeader p; pending := n;
     stdinClosed := stdinClosed p; stdout := stdout p; stderr := stderr p;
     fetched := fetched p; awaiting := awaiting p; exitCode := exitCode p |}.

Definition with_stdinClosed (b : bool) (p : Process) : Process :=
  {| url := url p; authHeader := authHeader p; pending := pending p;
     stdinClosed := b; stdout := stdout p; stderr := stderr p;
     fetched := fetched p; awaiting := awaiting p; exitCode := exitCode p |}.

Definition with_stdout (l : list string) (p : Process) : Process :=
  {| url := url p; authHeader := authHeader p; pending := pending p;
     stdinClosed := stdinClosed p; stdout := l; stderr := stderr p;
     fetched := fetched p; awaiting := awaiting p; exitCode := exitCode p |}.

Definition with_stderr (l : list string) (p : Process) : Process :=
  {| url := url p; authHeader := authHeader p; pending := pending p;
     stdinClosed := stdinClosed p; stdout := stdout p; stderr := l;
     fetched := fetched p; awaiting := awaiting p; exitCode := exitCode p |}.

Definition with_fetched (l : list HttpRequest) (p : Process) : Process :=
  {| url := url p; authHeader := authHeader p; pending := pending p;
     stdinClosed := stdinClosed p; stdout := stdout p; stderr := stderr p;
     fetched := l; awaiting := awaiting p; exitCode := exitCode p |}.

Definition with_awaiting (l : list Json) (p : Process) : Process :=
  {| url := url p; authHeader := authHeader p; pending := pending p;
     stdinClosed := stdinClosed p; stdout := stdout p; stderr := stderr p;
     fetched := fetched p; awaiting := l; exitCode := exitCode p |}.

Definition with_exitCode (c : option Z) (p : Process) : Process :=
  {| url := url p; authHeader := authHeader p; pending := pending p;
     stdinClosed := stdinClosed p; stdout := stdout p; stderr := stderr p;
     fetched := fetched p; awaiting := awaiting p; exitCode := c |}.

(** ** Statements: state passing with exceptions *)

Definition Eff (A : Type) : Type := Process -> Result A * Process.

Definition ret {A} (a : A) : Eff A := fun p => (Returned a, p).

Definition throw {A} (e : Error) : Eff A := fun p => (Threw e, p).

Definition bind {A B} (m : Eff A) (f : A -> Eff B) : Eff B :=
  fun p =>
    match m p with
    | (Returned a, p') => f a p'
    | (Threw e, p') => (Threw e, p')
    end.

Definition lift {A} (r : Result A) : Eff A := fun p => (r, p).

(** [try { body } catch (err) { handler }] *)
Definition try_catch {A} (body : Eff A) (handler : Error -> Eff A) : Eff A :=
  fun p =>
    match body p with
    | (Returned a, p') => (Returned a, p')
    | (Threw e, p') => handler e p'
    end.

(** [try { body } finally { final }] *)
Definition try_finally {A} (body : Eff A) (final : Eff unit) : Eff A :=
  fun p =>
    match body p with
    | (r, p') =>
        match final p' with
        | (Returned _, p'') => (r, p'')
        | (Threw e, p'') => (Threw e, p'')
        end
    end.

Definition modify (f : Process -> Process) : Eff unit :=
  fun p => (Returned tt, f p).

Definition read {A} (f : Process -> A) : Eff A :=
  fun p => (Returned (f p), p).

Notation "x <- m ;; k" := (bind m (fun x => k))
  (at level 61, m at next level, right associativity).
Notation "m ;; k" := (bind m (fun _ => k))
  (at level 61, right associativity).

Definition stdout_write (s : string) : Eff unit :=
  modify (fun p => with_stdout (stdout p ++ [s])%list p).

Definition stderr_write (s : string) : Eff unit :=
  modify (fun p => with_stderr (stderr p ++ [s])%list p).

(** [process.exit(code)].  Every call in the script is the last
    statement of its turn, so nothing of that turn is left to skip. *)
Definition process_exit (code : Z) : Eff unit :=
  modify (with_exitCode (Some code)).

(** What an exchange settles to: [fetch] rejects, or it resolves to a
    response with a status whose [text()] resolves or rejects. *)
Inductive Text : Type :=
| Body (body : string)
| TextRejected (err : Error).

Inductive Outcome : Type :=
| FetchRejected (err : Error)
| Response (status : Z) (text : Text).

(** [await fetch(url, init)]: the call is recorded and the activation
    is suspended, holding its [msg]. *)
Definition fetch (request : HttpRequest) (msg : Json) : Eff unit :=
  modify (fun p =>
    with_awaiting (awaiting p ++ [msg])%list
      (with_fetched (fetched p ++ [request])%list p)).

(** ** [index.js] *)

(** Lines 24-26. *)
Definition make_authHeader (password : option string) : option string :=
  match password with
  | None => None
  | Some pw =>
      if negb (pw =? "")%string then Some ("Basic " ++ base64 ("user:" ++ pw))
      else None
  end.

(** Lines 33-35. *)
Definition maybeExit : Eff unit :=
  closed <- read stdinClosed ;;
  n <- read pending ;;
  if closed && (n =? 0) then process_exit 0 else ret tt.

(** Lines 50-51. *)
Definition headers (auth : option string) : list (string * string) :=
  let headers := [("Content-Type", "application/json")] in
  match auth with
  | Some a => assign "Authorization" a headers
  | None => headers
  end.

(** The literals of lines 80-84 and 95-99. *)
Definition error_reply (id : Json) (text : string) : Json :=
  JObject
    [ ("jsonrpc", JString "2.0");
      ("id", id);
      ("error", JObject [ ("code", JNumber (number_literal (-32603)));
                          ("message", JString text) ]) ].

(** [JSON.stringify(v)] returns. *)
Definition serialises (v : Json) : bool :=
  match JSON_parse (JSON_stringify v) with
  | Some _ => true
  | None => false
  end.

(** [JSON.stringify(v)], with the RangeError of the runtime. *)
Definition stringify (v : Json) : Eff string :=
  if serialises v then ret (JSON_stringify v)
  else throw {| message := "Maximum call stack size exceeded" |}.

(** Lines 37-57: from the arrival of the line to the await; and lines
    90-105 when line 56 throws, so that there is no await. *)
Definition handleMessage_start (raw : string) : Eff unit :=
  match JSON_parse raw with
  | None => ret tt
  | Some msg =>
      method <- lift (Get msg "method") ;;
      if negb (ToBoolean method) then ret tt
      else
        n <- read pending ;;
        modify (with_pending (n + 1)) ;;
        auth <- read authHeader ;;
        u <- read url ;;
        serialised <- try_catch (body <- stringify msg ;; ret (inl body))
                                (fun err => ret (inr err)) ;;
        match serialised with
        | inl body =>
            fetch {| request_url := u;
                     request_method := "POST";
                     request_headers := headers auth;
                     request_body := body |} msg
        | inr err =>
            try_finally
              (stderr_write
                 ("[bridge] Request failed: " ++ message err ++ LF) ;;
               msg_id <- lift (Get msg "id") ;;
               match not_null msg_id with
               | Some id =>
                   text <- stringify
                             (error_reply id
                                ("Bridge error: " ++ message err)) ;;
                   stdout_write (text ++ LF)
               | None => ret tt
               end)
              (n <- read pending ;;
               modify (with_pending (n - 1)) ;;
               maybeExit)
        end
  end.

(** Lines 63-87: a body that is not empty.  The message at hand was
    serialised at line 56, or there would be no exchange; the error
    object of lines 80-84, which holds nothing of the message but its id,
    is taken to serialise too. *)
Definition relay (msg : Json) (body : string) : Eff unit :=
  try_catch
    (match JSON_parse body with
     | None => throw {| message := "SyntaxError" |}
     | Some parsed =>
         parsed_id <- lift (Get parsed "id") ;;
         if nullish parsed_id then
           msg_id <- lift (Get msg "id") ;;
           match not_null msg_id with
           | Some id =>
               text <- stringify (assign_id parsed id) ;;
               stdout_write (text ++ LF)
           | None => ret tt
           end
         else stdout_write (body ++ LF)
     end)
    (fun _ =>
       msg_id <- lift (Get msg "id") ;;
       match not_null msg_id with
       | Some id =>
           stderr_write ("[bridge] Non-JSON response: "
                           ++ substring0 200 body ++ LF) ;;
           stdout_write
             (JSON_stringify
                (error_reply id "Server returned non-JSON response") ++ LF)
       | None => ret tt
       end).

(** Lines 58-105: from the await to the end.  The error object of lines
    95-99 is taken to serialise, as in [relay]. *)
Definition handleMessage_resume (msg : Json) (outcome : Outcome) : Eff unit :=
  try_finally
    (try_catch
       (match outcome with
        | FetchRejected err => throw err
        | Response status text =>
            if negb (status =? 204) then
              match text with
              | TextRejected err => throw err
              | Body body =>
                  if negb (body =? "")%string then relay msg body else ret tt
              end
            else ret tt
        end)
       (fun err =>
          stderr_write ("[bridge] Request failed: " ++ message err ++ LF) ;;
          msg_id <- lift (Get msg "id") ;;
          match not_null msg_id with
          | Some id =>
              stdout_write
                (JSON_stringify
                   (error_reply id ("Bridge error: " ++ message err)) ++ LF)
          | None => ret tt
          end))
    (n <- read pending ;;
     modify (with_pending (n - 1)) ;;
     maybeExit).

(** Lines 110-113. *)
Definition on_close : Eff unit :=
  modify (with_stdinClosed true) ;;
  maybeExit.

(** Lines 16-31 and 115: the script's top level, given [process.argv[2]]
    and [process.argv[3]] ([None] for an argument that is not there). *)
Definition main (argv2 argv3 : option string) : Process :=
  let boot (u : string) :=
    {| url := u; authHeader := None; pending := 0; stdinClosed := false;
       stdout := []; stderr := []; fetched := []; awaiting := [];
       exitCode := None |} in
  let usable := match argv2 with Some u => negb (u =? "")%string | None => false end in
  let u := match argv2 with Some u => u | None => "" end in
  if negb usable then
    with_exitCode (Some 1)
      (with_stderr ["Usage: mcp-bridge <url> <password>" ++ LF] (boot u))
  else
    {| url := u; authHeader := make_authHeader argv3; pending := 0;
       stdinClosed := false; stdout := [];
       stderr := ["[bridge] Connected to " ++ u ++ LF];
       fetched := []; awaiting := []; exitCode := None |}.

(** ** Requests and notifications

    The script has no classifier of its own: lines 66, 77 and 93 each
    test [msg.id != null].  [classify] is that test. *)

Inductive Kind : Type :=
| Request (id : Json)
| Notification.

Definition classify (msg : Json) : Result Kind :=
  match Get msg "id" with
  | Returned v =>
      Returned match not_null v with
               | Some id => Request id
               | None => Notification
               end
  | Threw e => Threw e
  end.

(** The message carries the key [id]. *)
Definition has_id_key (msg : Json) : bool :=
  match msg with
  | JObject members =>
      match member "id" members with Some _ => true | None => false end
  | _ => false
  end.

(** The object [v] has [id] as the value of its member [id]. *)
Definition carries_id (v : Json) (id : Json) : Prop :=
  exists members, v = JObject members /\ member "id" members = Some id.

(** The outcomes after which lines 59 and 61 skip the relay: status 204,
    or a body that is the empty string. *)
Definition no_content (o : Outcome) : bool :=
  match o with
  | FetchRejected _ => false
  | Response status text =>
      (status =? 204)
      || match text with
         | Body body => (body =? "")%string
         | TextRejected _ => false
         end
  end.

(** ** The event loop *)

Inductive Event : Type :=
| Line (raw : string)               (* readline emits 'line' *)
| Close                             (* readline emits 'close' *)
| Settle (k : nat) (o : Outcome).   (* the k-th open exchange settles *)

(** A rejection of the promise of [handleMessage] is handled by nobody:
    the runtime (Node 15 and later, the README asks for 18) raises it as
    an uncaught exception and ends the process with code 1, unless the
    process has exited already.  The end is taken at the turn that
    rejects: the lines of the same chunk that readline emits after it in
    that turn, and that the runtime still hands to [handleMessage] before
    it ends the process, are left out. *)
Definition unhandled {A} (r : Result A * Process) : Process :=
  match r with
  | (Returned _, p) => p
  | (Threw _, p) =>
      match exitCode p with
      | None => with_exitCode (Some 1) p
      | Some _ => p
      end
  end.

Fixpoint remove_nth {A} (k : nat) (l : list A) : list A :=
  match l, k with
  | [], _ => []
  | _ :: rest, O => rest
  | x :: rest, S k' => x :: remove_nth k' rest
  end.

(** One turn of the event loop; [None] when the event cannot occur: the
    process has exited, or no such exchange is open. *)
Definition step (p : Process) (e : Event) : option Process :=
  match exitCode p with
  | Some _ => None
  | None =>
      match e with
      | Line raw => Some (unhandled (handleMessage_start raw p))
      | Close => Some (snd (on_close p))
      | Settle k o =>
          match nth_error (awaiting p) k with
          | None => None
          | Some msg =>
              Some (unhandled
                      (handleMessage_resume msg o
                         (with_awaiting (remove_nth k (awaiting p)) p)))
          end
      end
  end.

Fixpoint run (p : Process) (events : list Event) : option Process :=
  match events with
  | [] => Some p
  | e :: rest =>
      match step p e with
      | Some p' => run p' rest
      | None => None
      end
  end.

(** ** Invariants of a run *)

(** The message passed line 45. *)
Definition dispatched (msg : Json) : Prop :=
  exists method, Get msg "method" = Returned method /\ ToBoolean method = true.

(** The condition of [maybeExit]. *)
Definition drained (p : Process) : Prop :=
  stdinClosed p = true /\ pending p = 0.

(** [pending] counts the open exchanges, each of a message that passed
    line 45, and the process has exited with code 0 exactly when it is
    drained. *)
Definition balanced (p : Process) : Prop :=
  pending p = Z.of_nat (length (awaiting p))
  /\ Forall dispatched (awaiting p)
  /\ (exitCode p = Some 0 <-> drained p).

(** Every call of [fetch] so far was a POST to [u] with the headers built
    from [auth], and the two constants have those values. *)
Definition configured (u : string) (auth : option string) (p : Process)
  : Prop :=
  url p = u /\ authHeader p = auth
  /\ Forall (fun r => request_url r = u
                      /\ request_method r = "POST"
                      /\ request_headers r = headers auth) (fetched p).
End Bridge.

Arguments Returned {A} a.
Arguments Threw {A} e.

(** ** A reference platform: JSON with integer numbers

    A reader and a writer for JSON text whose numbers are integer
    literals, in the layout [JSON.stringify] produces (no white space,
    members in order).  Outside its fragment (a number with a fraction or
    an exponent, a [\u] escape above 255) the reader answers [None]. *)

Module Reference.

Definition quote_char : ascii := "034"%char.
Definition backslash : ascii := "092"%char.

Definition code (c : ascii) : Z := Z.of_N (N_of_ascii c).
Definition char_of (n : Z) : ascii := ascii_of_N (Z.to_N n).

Definition is_space (c : ascii) : bool :=
  (code c =? 32) || (code c =? 9) || (code c =? 10) || (code c =? 13).

Fixpoint skip_space (s : string) : string :=
  match s with
  | String c rest => if is_space c then skip_space rest else s
  | EmptyString => s
  end.

Definition digit (c : ascii) : option Z :=
  if (48 <=? code c) && (code c <=? 57) then Some (code c - 48) else None.

Definition hex_digit (c : ascii) : option Z :=
  if (48 <=? code c) && (code c <=? 57) then Some (code c - 48)
  else if (97 <=? code c) && (code c <=? 102) then Some (code c - 87)
  else if (65 <=? code c) && (code c <=? 70) then Some (code c - 55)
  else None.

Fixpoint read_digits (acc : Z) (s : string) : Z * string :=
  match s with
  | String c rest =>
      match digit c with
      | Some d => read_digits (acc * 10 + d) rest
      | None => (acc, s)
      end
  | EmptyString => (acc, s)
  end.

(** An integer literal; [None] when a fraction or an exponent follows. *)
Definition read_integer (s : string) : option (Z * string) :=
  let (sign, digits) :=
    match s with
    | String c rest => if (code c =? 45) then (-1, rest) else (1, s)
    | EmptyString => (1, s)
    end in
  match digits with
  | String c rest =>
      match digit c with
      | None => None
      | Some d =>
          let (n, rest') := if d =? 0 then (0, rest) else read_digits d rest in
          match rest' with
          | String c' _ =>
              if (code c' =? 46) || (code c' =? 101) || (code c' =? 69)
              then None else Some (sign * n, rest')
          | EmptyString => Some (sign * n, rest')
          end
      end
  | EmptyString => None
  end.

Definition unescape (c : ascii) : option ascii :=
  if (code c =? 34) || (code c =? 92) || (code c =? 47) then Some c
  else if code c =? 98 then Some (char_of 8)
  else if code c =? 102 then Some (char_of 12)
  else if code c =? 110 then Some (char_of 10)
  else if code c =? 114 then Some (char_of 13)
  else if code c =? 116 then Some (char_of 9)
  else None.

Definition hex4 (a b c d : ascii) : option ascii :=
  match hex_digit a, hex_digit b, hex_digit c, hex_digit d with
  | Some 0, Some 0, Some h, Some l => Some (char_of (h * 16 + l))
  | _, _, _, _ => None
  end.

Definition cons_char (c : ascii) (r : option (string * string))
  : option (string * string) :=
  match r with
  | Some (s, rest) => Some (String c s, rest)
  | None => None
  end.

(** The characters of a string literal after its opening quote. *)
Fixpoint read_string (s : string) : option (string * string) :=
  match s with
  | EmptyString => None
  | String c rest =>
      if code c =? 34 then Some ("", rest)
      else if code c =? 92 then
        match rest with
        | EmptyString => None
        | String e rest1 =>
            match unescape e with
            | Some c' => cons_char c' (read_string rest1)
            | None =>
                if code e =? 117 then
                  match rest1 with
                  | String h1 (String h2 (String h3 (String h4 rest2))) =>
                      match hex4 h1 h2 h3 h4 with
                      | Some c' => cons_char c' (read_string rest2)
                      | None => None
                      end
                  | _ => None
                  end
                else None
            end
        end
      else if code c <? 32 then None
      else cons_char c (read_string rest)
  end.

Definition starts_with (prefix s : string) : option string :=
  if String.prefix prefix s
  then Some (String.substring (String.length prefix)
               (String.length s - String.length prefix) s)
  else None.

Fixpoint read_value (fuel : nat) (s : string) : option (JSON Z * string) :=
  match fuel with
  | O => None
  | S fuel' =>
      match skip_space s with
      | EmptyString => None
      | String c rest =>
          if code c =? 123 then
            match skip_space rest with
            | String c' rest' =>
                if code c' =? 125 then Some (JObject [], rest')
                else read_members fuel' [] rest
            | EmptyString => None
            end
          else if code c =? 91 then
            match skip_space rest with
            | String c' rest' =>
                if code c' =? 93 then Some (JArray [], rest')
                else read_items fuel' [] rest
            | EmptyString => None
            end
          else if code c =? 34 then
            match read_string rest with
            | Some (str, rest') => Some (JString str, rest')
            | None => None
            end
          else
            match starts_with "null" (String c rest),
                  starts_with "true" (String c rest),
                  starts_with "false" (String c rest) with
            | Some rest', _, _ => Some (JNull, rest')
            | _, Some rest', _ => Some (JBool true, rest')
            | _, _, Some rest' => Some (JBool false, rest')
            | None, None, None =>
                match read_integer (String c rest) with
                | Some (n, rest') => Some (JNumber n, rest')
                | None => None
                end
            end
      end
  end

with read_members (fuel : nat) (acc : list (string * JSON Z)) (s : string)
  : option (JSON Z * string) :=
  match fuel with
  | O => None
  | S fuel' =>
      match skip_space s with
      | String c rest =>
          if code c =? 34 then
            match read_string rest with
            | Some (key, rest1) =>
                match skip_space rest1 with
                | String colon rest2 =>
                    if code colon =? 58 then
                      match read_value fuel' rest2 with
                      | Some (v, rest3) =>
                          let acc' := assign key v acc in
                          match skip_space rest3 with
                          | String sep rest4 =>
                              if code sep =? 44 then read_members fuel' acc' rest4
                              else if code sep =? 125
                                   then Some (JObject acc', rest4)
                                   else None
                          | EmptyString => None
                          end
                      | None => None
                      end
                    else None
                | EmptyString => None
                end
            | None => None
            end
          else None
      | EmptyString => None
      end
  end

with read_items (fuel : nat) (acc : list (JSON Z)) (s : string)
  : option (JSON Z * string) :=
  match fuel with
  | O => None
  | S fuel' =>
      match read_value fuel' s with
      | Some (v, rest) =>
          let acc' := (acc ++ [v])%list in
          match skip_space rest with
          | String sep rest1 =>
              if code sep =? 44 then read_items fuel' acc' rest1
              else if code sep =? 93 then Some (JArray acc', rest1)
                   else None
          | EmptyString => None
          end
      | None => None
      end
  end.

Definition parse (text : string) : option (JSON Z) :=
  match read_value (S (String.length text)) text with
  | Some (v, rest) =>
      match skip_space rest with
      | EmptyString => Some v
      | String _ _ => None
      end
  | None => None
  end.

Definition hex_char (n : Z) : ascii :=
  if n <? 10 then char_of (48 + n) else char_of (87 + n).

Definition escape (c : ascii) : string :=
  let one (e : Z) := String backslash (String (char_of e) EmptyString) in
  if code c =? 34 then one 34
  else if code c =? 92 then one 92
  else if code c =? 8 then one 98
  else if code c =? 12 then one 102
  else if code c =? 10 then one 110
  else if code c =? 13 then one 114
  else if code c =? 9 then one 116
  else if code c <? 32 then
    String backslash
      ("u00" ++ String (hex_char (code c / 16))
                  (String (hex_char (code c mod 16)) EmptyString))
  else String c EmptyString.

Fixpoint escape_all (s : string) : string :=
  match s with
  | EmptyString => ""
  | String c rest => escape c ++ escape_all rest
  end.

Definition quoted (s : string) : string :=
  String quote_char (escape_all s ++ String quote_char EmptyString).

(** The text of a value. *)
Fixpoint write (v : JSON Z) : string :=
  match v with
  | JNull => "null"
  | JBool true => "true"
  | JBool false => "false"
  | JNumber n => NilZero.string_of_int (Z.to_int n)
  | JString s => quoted s
  | JArray items =>
      "[" ++ (fix each (l : list (JSON Z)) : string :=
                match l with
                | [] => ""
                | x :: rest =>
                    match rest with
                    | [] => write x
                    | _ :: _ => write x ++ "," ++ each rest
                    end
                end) items ++ "]"
  | JObject members =>
      "{" ++ (fix each (l : list (string * JSON Z)) : string :=
                match l with
                | [] => ""
                | (k, x) :: rest =>
                    match rest with
                    | [] => quoted k ++ ":" ++ write x
                    | _ :: _ => quoted k ++ ":" ++ write x ++ "," ++ each rest
                    end
                end) members ++ "}"
  end.

(** The arrays and objects around the innermost value. *)
Fixpoint depth (v : JSON Z) : Z :=
  match v with
  | JArray items =>
      1 + (fix deepest (l : list (JSON Z)) : Z :=
             match l with
             | [] => 0
             | x :: rest => Z.max (depth x) (deepest rest)
             end) items
  | JObject members =>
      1 + (fix deepest (l : list (string * JSON Z)) : Z :=
             match l with
             | [] => 0
             | (_, x) :: rest => Z.max (depth x) (deepest rest)
             end) members
  | _ => 0
  end.

(** The nesting at which the writer gives up.  The built-in recurses on
    the runtime's stack, one level for each array or object, and where
    the stack ends depends on the runtime; the reader does not recurse,
    and reads what the writer cannot write. *)
Definition stack_limit : Z := 5000.

(** The text of a value, and a text that is not JSON where the built-in
    throws its RangeError. *)
Definition stringify (v : JSON Z) : string :=
  if depth v <? stack_limit then write v else "".

(** Text written with ['] where the JSON has its double quote. *)
Fixpoint dq (s : string) : string :=
  match s with
  | EmptyString => ""
  | String c rest => String (if code c =? 39 then quote_char else c) (dq rest)
  end.

End Reference.

#[export] Instance reference : Platform := {|
  number := Z;
  number_ToBoolean := fun n => negb (n =? 0);
  number_literal := fun n => n;
  JSON_parse := Reference.parse;
  JSON_stringify := Reference.stringify
|}.

(** ** Sample inputs *)

Module Sample.
Import Reference.

Definition endpoint : string := "http://localhost:8000/mcp".

Definition ping : string := dq "{'jsonrpc':'2.0','id':5,'method':'ping'}".
Definition ping0 : string := dq "{'jsonrpc':'2.0','id':0,'method':'ping'}".
Definition ping_null_id : string :=
  dq "{'jsonrpc':'2.0','id':null,'method':'ping'}".
Definition ping_empty_method : string :=
  dq "{'jsonrpc':'2.0','id':1,'method':''}".
Definition initialized : string :=
  dq "{'jsonrpc':'2.0','method':'notifications/initialized'}".

Definition ping_msg : JSON Z :=
  JObject [("jsonrpc", JString "2.0"); ("id", JNumber 5);
           ("method", JString "ping")].
Definition ping0_msg : JSON Z :=
  JObject [("jsonrpc", JString "2.0"); ("id", JNumber 0);
           ("method", JString "ping")].
Definition ping_null_id_msg : JSON Z :=
  JObject [("jsonrpc", JString "2.0"); ("id", JNull);
           ("method", JString "ping")].
Definition ping_empty_method_msg : JSON Z :=
  JObject [("jsonrpc", JString "2.0"); ("id", JNumber 1);
           ("method", JString "")].
Definition initialized_msg : JSON Z :=
  JObject [("jsonrpc", JString "2.0");
           ("method", JString "notifications/initialized")].

Definition reply_other_id : string :=
  dq "{'jsonrpc':'2.0','id':7,'result':{}}".
Definition reply_no_id : string := dq "{'jsonrpc':'2.0','result':{}}".
Definition reply_no_id_members : list (string * JSON Z) :=
  [("jsonrpc", JString "2.0"); ("result", JObject [])].

(** A reply without an id whose result is an empty array inside 9999
    others. *)
Definition nested_arrays (n : N) (inner : string) : string :=
  N.iter n (String "["%char) (inner ++ N.iter n (String "]"%char) "").
Definition nested (n : N) (inner : JSON Z) : JSON Z :=
  N.iter n (fun v => JArray [v]) inner.

Definition reply_deep : string :=
  dq "{'jsonrpc':'2.0','result':" ++ nested_arrays 9999 "[]" ++ "}".
Definition reply_deep_members : list (string * JSON Z) :=
  [("jsonrpc", JString "2.0"); ("result", nested 9999 (JArray []))].

(** The request [ping] with parameters nested as deep, and with an id
    nested as deep. *)
Definition ping_deep : string :=
  dq "{'jsonrpc':'2.0','id':5,'method':'ping','params':"
  ++ nested_arrays 9999 "[]" ++ "}".
Definition ping_deep_id : string :=
  dq "{'jsonrpc':'2.0','id':" ++ nested_arrays 9999 "[]"
  ++ dq ",'method':'ping'}".

Definition refused : Error := {| message := "fetch failed" |}.

(** The bridge started on [endpoint], after the given events. *)
Definition after (password : option string) (events : list Event) : Process :=
  match run (main (Some endpoint) password) events with
  | Some p => p
  | None => main (Some endpoint) password
  end.
End Sample.

(** ** Traces

    Measures of a run, for the properties that span it. *)

Section Traces.
Context {platform : Platform}.

Definition is_line (e : Event) : bool :=
  match e with Line _ => true | _ => false end.

Definition is_settle (e : Event) : bool :=
  match e with Settle _ _ => true | _ => false end.

Definition lines_in (events : list Event) : nat :=
  length (filter is_line events).

Definition settles_in (events : list Event) : nat :=
  length (filter is_settle events).

(** A write that ends its line. *)
Definition terminated (w : string) : Prop := exists text, w = text ++ LF.

(** The id a reply body has of its own: the value of [parsed.id] when the
    body parses, to a value that is not null, and that id is neither
    absent nor null. *)
Definition own_id (body : string) : option (JSON number) :=
  match JSON_parse body with
  | Some parsed =>
      match Get parsed "id" with
      | Returned v => not_null v
      | Threw _ => None
      end
  | None => None
  end.

(** A call of [fetch] made for one of the lines of [events]: a POST of
    the serialised message of that line to [u]. *)
Definition posts (u : string) (events : list Event) (r : HttpRequest) : Prop :=
  request_url r = u
  /\ request_method r = "POST"
  /\ exists raw msg,
      In (Line raw) events
      /\ JSON_parse raw = Some msg
      /\ dispatched msg
      /\ request_body r = JSON_stringify msg.

(** The diagnostic of line 91. *)
Definition request_failed (err : Error) : string :=
  "[bridge] Request failed: " ++ message err ++ LF.
End Traces.

(** * [test-handshake.js]

    The harness that runs the bridge as a child process: how it cuts the
    child's stdout into responses, and how [validate] judges them.  A
    chunk is taken as the text [chunk.toString()] gives; what the harness
    prints is left out, its count of failures and its exit code are kept.
    The keys it reads ([id], [jsonrpc], [result], [error],
    [protocolVersion], [serverInfo], [tools]) are defined by no prototype,
    as for [Get]. *)

(** [===] on two numbers, which the harness needs and the bridge does not. *)
Class Comparison (platform : Platform) : Type := {
  number_equals : number -> number -> bool
}.

Module Handshake.
Section Harness.
Context {platform : Platform} {comparison : Comparison platform}.

(** An entry of [responses]: [{ raw, parsed }], with [parsed] null when
    the line does not parse. *)
Record Received : Type := { raw : string; parsed : JSON number }.

Record Harness : Type := {
  stdoutBuf : string;              (* let stdoutBuf *)
  responses : list Received        (* const responses *)
}.

(** [s.split("\n")] *)
Fixpoint split_lines (s : string) : list string :=
  match s with
  | EmptyString => [""]
  | String c rest =>
      if Ascii.eqb c "010" then "" :: split_lines rest
      else match split_lines rest with
           | first :: others => String c first :: others
           | [] => [String c ""]
           end
  end.

(** The white space [trim] removes, among the code units below 256. *)
Definition is_white (c : ascii) : bool :=
  let n := N_of_ascii c in
  ((9 <=? n) && (n <=? 13) || (n =? 32) || (n =? 160))%N.

(** [!line.trim()] *)
Fixpoint blank (line : string) : bool :=
  match line with
  | EmptyString => true
  | String c rest => is_white c && blank rest
  end.

(** The body of the loop over [lines], for one line. *)
Definition receive (line : string) : list Received :=
  if blank line then []
  else [{| raw := line;
           parsed := match JSON_parse line with
                     | Some v => v
                     | None => JNull
                     end |}].

(** [bridge.stdout.on("data", ...)] *)
Definition on_data (h : Harness) (chunk : string) : Harness :=
  let lines := split_lines (stdoutBuf h ++ chunk) in
  {| stdoutBuf := last lines "";
     responses := (responses h ++ flat_map receive (removelast lines))%list |}.

Definition started : Harness := {| stdoutBuf := ""; responses := [] |}.

Definition feed (h : Harness) (chunks : list string) : Harness :=
  fold_left on_data chunks h.

(** The child's stdout as one text: the chunks, or the writes, end to
    end. *)
Definition stream (pieces : list string) : string :=
  fold_right append "" pieces.

(** ** [validate] *)

Definition and_then {A B} (r : Result A) (f : A -> Result B) : Result B :=
  match r with
  | Returned a => f a
  | Threw e => Threw e
  end.

(** [v.key], for a value that may be [undefined]. *)
Definition Get_of (v : JSValue) (key : string) : Result JSValue :=
  match v with
  | undefined =>
      Threw {| message :=
        "Cannot read properties of undefined (reading '" ++ key ++ "')" |}
  | value o => Get o key
  end.

(** [key in o], for the keys [result] and [error]. *)
Definition has_property (key : string) (o : JSON number) : Result bool :=
  match o with
  | JObject members =>
      Returned match member key members with
               | Some _ => true
               | None => false
               end
  | JArray _ => Returned false
  | _ =>
      Threw {| message :=
        "Cannot use 'in' operator to search for '" ++ key ++ "'" |}
  end.

(** [a === b], for a value read off a response and a value of the
    script: two objects or two arrays are never the same one. *)
Definition strict_equals (a b : JSValue) : bool :=
  match a, b with
  | undefined, undefined => true
  | value JNull, value JNull => true
  | value (JBool x), value (JBool y) => Bool.eqb x y
  | value (JNumber x), value (JNumber y) => number_equals x y
  | value (JString x), value (JString y) => (x =? y)%string
  | _, _ => false
  end.

(** [Array.isArray(v)] *)
Definition isArray (v : JSValue) : bool :=
  match v with
  | value (JArray _) => true
  | _ => false
  end.

Record Step : Type := {
  name : string;
  send : JSON number;
  expectResponse : bool;
  step_validate : option (JSON number -> Result (option string))
}.

(** The [validate] of the step [initialize]. *)
Definition validate_initialize (p : JSON number) : Result (option string) :=
  and_then (Get p "result") (fun result =>
  if negb (ToBoolean result) then Returned (Some "missing result")
  else
    and_then (Get_of result "protocolVersion") (fun version =>
    if negb (ToBoolean version) then Returned (Some "missing protocolVersion")
    else
      and_then (Get_of result "serverInfo") (fun info =>
      if negb (ToBoolean info) then Returned (Some "missing serverInfo")
      else Returned None))).

(** The [validate] of the step [tools/list]. *)
Definition validate_tools_list (p : JSON number) : Result (option string) :=
  and_then (Get p "result") (fun result =>
  if negb (ToBoolean result) then Returned (Some "missing result")
  else
    and_then (Get_of result "tools") (fun tools =>
    if negb (isArray tools) then Returned (Some "missing tools array")
    else Returned None)).

Definition request (id : Z) (method : string) : JSON number :=
  JObject [("jsonrpc", JString "2.0");
           ("id", JNumber (number_literal id));
           ("method", JString method)].

(** [const steps] *)
Definition steps : list Step :=
  [ {| name := "initialize";
       send :=
         JObject
           [("jsonrpc", JString "2.0");
            ("id", JNumber (number_literal 1));
            ("method", JString "initialize");
            ("params",
             JObject
               [("protocolVersion", JString "2024-11-05");
                ("capabilities", JObject []);
                ("clientInfo",
                 JObject [("name", JString "handshake-test");
                          ("version", JString "1.0")])])];
       expectResponse := true;
       step_validate := Some validate_initialize |};
    {| name := "notifications/initialized";
       send := JObject [("jsonrpc", JString "2.0");
                        ("method", JString "notifications/initialized")];
       expectResponse := false;
       step_validate := None |};
    {| name := "tools/list";
       send := request 2 "tools/list";
       expectResponse := true;
       step_validate := Some validate_tools_list |};
    {| name := "resources/list";
       send := request 3 "resources/list";
       expectResponse := true;
       step_validate := None |};
    {| name := "prompts/list";
       send := request 4 "prompts/list";
       expectResponse := true;
       step_validate := None |};
    {| name := "ping";
       send := request 5 "ping";
       expectResponse := true;
       step_validate := None |};
    {| name := "ping with id=0 (falsy edge case)";
       send := request 0 "ping";
       expectResponse := true;
       step_validate := None |} ].

(** The checks the first loop of [validate] makes on the response at
    hand: [true] for a failure. *)
Definition check (step : Step) (resp : option Received) : Result bool :=
  match resp with
  | None => Returned true
  | Some r =>
      if negb (ToBoolean (value (parsed r))) then Returned true
      else
        let p := parsed r in
        and_then (Get p "id") (fun id =>
        if nullish id then Returned true
        else
          and_then (Get (send step) "id") (fun sent =>
          if negb (strict_equals id sent) then Returned true
          else
            and_then (Get p "jsonrpc") (fun version =>
            if negb (strict_equals version (value (JString "2.0")))
            then Returned true
            else
              and_then (has_property "result" p) (fun has_result =>
              and_then (if has_result then Returned true
                        else has_property "error" p) (fun has_either =>
              if negb has_either then Returned true
              else
                match step_validate step with
                | None => Returned false
                | Some f =>
                    and_then (f p) (fun err =>
                    Returned match err with
                             | Some text => negb (text =? "")%string
                             | None => false
                             end)
                end)))))
  end.

(** The first loop of [validate]: the failures counted, from the
    response at [responseIndex] on. *)
Fixpoint check_steps (todo : list Step) (received : list Received)
    (responseIndex : nat) : Result nat :=
  match todo with
  | [] => Returned O
  | step :: rest =>
      if negb (expectResponse step)
      then check_steps rest received responseIndex
      else
        and_then (check step (nth_error received responseIndex))
          (fun failed =>
        and_then (check_steps rest received (S responseIndex))
          (fun failures =>
        Returned ((if failed then 1 else 0) + failures)%nat))
  end.

(** The test of the second loop: a response with a value and no id. *)
Definition stray (r : Received) : Result bool :=
  if ToBoolean (value (parsed r))
  then and_then (Get (parsed r) "id") (fun id => Returned (nullish id))
  else Returned false.

Fixpoint count_stray (received : list Received) : Result nat :=
  match received with
  | [] => Returned O
  | r :: rest =>
      and_then (stray r) (fun s =>
      and_then (count_stray rest) (fun n =>
      Returned ((if s then 1 else 0) + n)%nat))
  end.

(** [validate()]: the failures of the two loops. *)
Definition validate (todo : list Step) (received : list Received)
  : Result nat :=
  and_then (check_steps todo received 0) (fun failures =>
  and_then (count_stray received) (fun more =>
  Returned (failures + more)%nat)).

(** [process.exit(failures > 0 ? 1 : 0)] *)
Definition exit_code (failures : nat) : Z :=
  if (0 <? failures)%nat then 1 else 0.

(** The steps that wait for a response, in order. *)
Definition expecting (todo : list Step) : list Step :=
  filter expectResponse todo.

(** What a response must be to pass the checks of its step, the
    [validate] of the step apart. *)
Definition answers (step : Step) (r : Received) : Prop :=
  exists members id,
    parsed r = JObject members
    /\ member "id" members = Some id
    /\ id <> JNull
    /\ (exists sent, Get (send step) "id" = Returned sent
                     /\ strict_equals (value id) sent = true)
    /\ member "jsonrpc" members = Some (JString "2.0")
    /\ (member "result" members <> None \/ member "error" members <> None).

(** A text without a newline in it. *)
Fixpoint one_line (text : string) : bool :=
  match text with
  | EmptyString => true
  | String c rest => negb (Ascii.eqb c "010") && one_line rest
  end.
End Harness.
End Handshake.

#[export] Instance reference_comparison : Comparison reference := {|
  number_equals := Z.eqb
|}.

(** ** Sample inputs of the harness *)

Module HarnessSample.
Import Handshake.

Definition ping_step : Step :=
  {| name := "ping";
     send := request 5 "ping";
     expectResponse := true;
     step_validate := None |}.

Definition pong : Received :=
  {| raw := Reference.dq "{'jsonrpc':'2.0','id':5,'result':{}}";
     parsed := JObject [("jsonrpc", JString "2.0"); ("id", JNumber 5);
                        ("result", JObject [])] |}.

Definition no_id : Received :=
  {| raw := Reference.dq "{'jsonrpc':'2.0','result':{}}";
     parsed := JObject [("jsonrpc", JString "2.0"); ("result", JObject [])] |}.
End HarnessSample.

(** * Properties *)

Section Properties.
Context {platform : Platform}.

#[local] Abbreviation Json := (JSON number).

Ltac unfold_eff :=
  cbv [handleMessage_resume handleMessage_start relay on_close maybeExit
       try_finally try_catch bind lift ret throw modify read
       stdout_write stderr_write process_exit fetch stringify].

(** ** Members *)

Lemma member_assign_same {A} (key : string) (v : A) ms :
  member key (assign key v ms) = Some v.
Proof.
  induction ms as [|[k w] rest IH]; simpl.
  - now rewrite String.eqb_refl.
  - destruct (k =? key)%string eqn:E; simpl; rewrite E; auto.
Qed.

Lemma substring0_length n s : (String.length (substring0 n s) <= n)%nat.
Proof.
  unfold substring0. revert s.
  induction n as [|n IH]; intros [|c s]; simpl; try lia.
  specialize (IH s). lia.
Qed.

(** ** Reading [id] off a message *)

Lemma classify_request msg id :
  classify msg = Returned (Request id) ->
  exists v, Get msg "id" = Returned v /\ not_null v = Some id.
Proof.
  unfold classify. destruct (Get msg "id") as [v|e]; [|discriminate].
  destruct (not_null v) as [j|] eqn:E; intro H; inversion H; subst; eauto.
Qed.

Lemma classify_notification msg :
  classify msg = Returned Notification ->
  exists v, Get msg "id" = Returned v /\ not_null v = None.
Proof.
  unfold classify. destruct (Get msg "id") as [v|e]; [|discriminate].
  destruct (not_null v) as [j|] eqn:E; intro H; inversion H; subst; eauto.
Qed.

(** ** Settling an exchange *)

Lemma step_settle p k o msg :
  exitCode p = None ->
  nth_error (awaiting p) k = Some msg ->
  step p (Settle k o) =
    Some (unhandled (handleMessage_resume msg o
                       (with_awaiting (remove_nth k (awaiting p)) p))).
Proof. intros Hrun Hk. unfold step. now rewrite Hrun, Hk. Qed.

Ltac cases :=
  repeat match goal with
         | |- context [match ?x with _ => _ end] =>
             lazymatch x with
             | context [match _ with _ => _ end] => fail
             | _ => destruct x eqn:?; simpl
             end
         end.

(** What [handleMessage_resume] leaves alone, and what its [finally]
    block does, for every message and every outcome. *)
Lemma resume_frame msg o p :
  let p' := snd (handleMessage_resume msg o p) in
  url p' = url p /\ authHeader p' = authHeader p
  /\ stdinClosed p' = stdinClosed p /\ fetched p' = fetched p
  /\ awaiting p' = awaiting p
  /\ pending p' = pending p - 1
  /\ exitCode p' =
       if stdinClosed p && (pending p - 1 =? 0) then Some 0 else exitCode p.
Proof.
  unfold_eff. simpl. cases; simpl; repeat split; reflexivity.
Qed.

(** C10.  [confirmed]  An exchange that completes with an empty body
    writes nothing to stdout, whatever its status and whether or not the
    message was a request. *)
Theorem empty_body_no_output p k msg status :
  exitCode p = None ->
  nth_error (awaiting p) k = Some msg ->
  exists p',
    step p (Settle k (Response status (Body ""))) = Some p'
    /\ stdout p' = stdout p.
Proof.
  intros Hrun Hk. rewrite (step_settle _ _ _ _ Hrun Hk).
  eexists; split; [reflexivity|].
  unfold_eff. simpl.
  destruct (status =? 204); simpl;
    destruct (stdinClosed p && (pending p - 1 =? 0)); reflexivity.
Qed.

(** A rejected [fetch], at the level of [handleMessage]. *)
Lemma resume_rejected msg kind err p :
  classify msg = Returned kind ->
  let p' := unhandled (handleMessage_resume msg (FetchRejected err) p) in
  stderr p' =
    app (stderr p) ["[bridge] Request failed: " ++ message err ++ LF]
  /\ stdout p' =
       app (stdout p)
         match kind with
         | Request id =>
             [JSON_stringify
                (error_reply id ("Bridge error: " ++ message err)) ++ LF]
         | Notification => []
         end.
Proof.
  intro Hc. destruct kind as [id|].
  - apply classify_request in Hc as (v & Hget & Hid).
    unfold_eff. rewrite Hget, Hid. simpl.
    destruct (stdinClosed p && (pending p - 1 =? 0)); simpl; auto.
  - apply classify_notification in Hc as (v & Hget & Hid).
    unfold_eff. rewrite Hget, Hid. simpl.
    destruct (stdinClosed p && (pending p - 1 =? 0)); simpl;
      rewrite app_nil_r; auto.
Qed.

(** C4.  [confirmed]  When the exchange fails with no reply, a request
    gets exactly the synthesized error object, with its own id, code
    -32603 and the message [Bridge error: ] followed by the failure
    detail, on stdout; a notification gets nothing on stdout.  In both
    cases the diagnostic goes to stderr. *)
Theorem transport_failure_reply p k msg kind err :
  exitCode p = None ->
  nth_error (awaiting p) k = Some msg ->
  classify msg = Returned kind ->
  exists p',
    step p (Settle k (FetchRejected err)) = Some p'
    /\ stderr p' =
         app (stderr p) ["[bridge] Request failed: " ++ message err ++ LF]
    /\ stdout p' =
         app (stdout p)
           match kind with
           | Request id =>
               [JSON_stringify
                  (error_reply id ("Bridge error: " ++ message err)) ++ LF]
           | Notification => []
           end.
Proof.
  intros Hrun Hk Hc. rewrite (step_settle _ _ _ _ Hrun Hk).
  eexists; split; [reflexivity|].
  exact (resume_rejected msg kind err _ Hc).
Qed.

Ltac finish_settle p :=
  simpl; destruct (stdinClosed p && (pending p - 1 =? 0)); simpl;
  rewrite ?app_nil_r; auto.

Ltac settle_with p :=
  unfold_eff;
  repeat (match goal with H : _ = _ |- _ => rewrite H end; simpl);
  finish_settle p.

(** C5, as the code has it.  [corrected]  For a reply, not of status 204,
    whose body is not empty and does not parse: a request gets the
    diagnostic on stderr, with at most 200 characters of the body, and the
    synthesized error [Server returned non-JSON response] with its own id
    on stdout; a notification gets nothing, neither on stderr nor on
    stdout. *)
Theorem unparsable_body_reply p k msg kind status body :
  exitCode p = None ->
  nth_error (awaiting p) k = Some msg ->
  classify msg = Returned kind ->
  status <> 204 ->
  body <> "" ->
  JSON_parse body = None ->
  exists p',
    step p (Settle k (Response status (Body body))) = Some p'
    /\ (String.length (substring0 200 body) <= 200)%nat
    /\ match kind with
       | Request id =>
           stderr p' =
             app (stderr p)
               ["[bridge] Non-JSON response: " ++ substring0 200 body ++ LF]
           /\ stdout p' =
               app (stdout p)
                 [JSON_stringify
                    (error_reply id "Server returned non-JSON response")
                  ++ LF]
       | Notification => stderr p' = stderr p /\ stdout p' = stdout p
       end.
Proof.
  intros Hrun Hk Hc Hs Hb Hparse. rewrite (step_settle _ _ _ _ Hrun Hk).
  eexists; split; [reflexivity|]. split; [apply substring0_length|].
  apply Z.eqb_neq in Hs. apply String.eqb_neq in Hb.
  destruct kind as [id|].
  - apply classify_request in Hc as (v & Hget & Hid).
    unfold_eff. rewrite Hs, Hb. simpl. rewrite Hparse, Hget, Hid.
    finish_settle p.
  - apply classify_notification in Hc as (v & Hget & Hid).
    unfold_eff. rewrite Hs, Hb. simpl. rewrite Hparse, Hget, Hid.
    finish_settle p.
Qed.

(** C3, as the code has it.  [corrected]  For a reply, not of status
    204, whose body parses to an object: if the object has an id that is
    not null, the body text goes to stdout as it is, followed by a
    newline; if it has none, or null, a request gets the object with its
    own id assigned, and that id is the request's id, when that object
    can be serialised, and the synthesized [non-JSON] error with its id
    when serialising it throws; a notification gets nothing. *)
Theorem object_reply_relayed p k msg kind status body reply :
  exitCode p = None ->
  nth_error (awaiting p) k = Some msg ->
  classify msg = Returned kind ->
  status <> 204 ->
  body <> "" ->
  JSON_parse body = Some (JObject reply) ->
  exists p',
    step p (Settle k (Response status (Body body))) = Some p'
    /\ stdout p' =
         app (stdout p)
           match member "id" reply with
           | Some JNull | None =>
               match kind with
               | Request id =>
                   if serialises (JObject (assign "id" id reply))
                   then [JSON_stringify (JObject (assign "id" id reply)) ++ LF]
                   else [JSON_stringify
                           (error_reply id "Server returned non-JSON response")
                         ++ LF]
               | Notification => []
               end
           | Some _ => [body ++ LF]
           end
    /\ forall id, kind = Request id ->
         carries_id (JObject (assign "id" id reply)) id
         /\ carries_id
              (error_reply id "Server returned non-JSON response") id.
Proof.
  intros Hrun Hk Hc Hs Hb Hparse. rewrite (step_settle _ _ _ _ Hrun Hk).
  eexists; split; [reflexivity|]. split.
  2:{ intros id _. split; eexists; split; try reflexivity.
      apply member_assign_same. }
  apply Z.eqb_neq in Hs. apply String.eqb_neq in Hb.
  assert (Hmsg : exists v, Get msg "id" = Returned v
                           /\ not_null v = match kind with
                                           | Request id => Some id
                                           | Notification => None
                                           end).
  { destruct kind; [apply classify_request|apply classify_notification];
      assumption. }
  destruct Hmsg as (v & Hget & Hid).
  unfold_eff. rewrite Hs, Hb. simpl. rewrite Hparse. simpl.
  destruct (member "id" reply) as [[| | | | |]|]; simpl;
    rewrite ?Hget, ?Hid; destruct kind as [id|]; simpl;
    try destruct (serialises (JObject (assign "id" id reply)));
    simpl; rewrite ?Hget, ?Hid; finish_settle p.
Qed.

Lemma error_reply_carries_id (id : Json) text :
  carries_id (error_reply id text) id.
Proof. eexists; split; reflexivity. Qed.

(** C1, as the code has it.  [corrected]  When the exchange of a request
    settles, stdout gets nothing if the reply has status 204 or an empty
    body.  Otherwise it gets exactly one write: the [Bridge error] object
    when the fetch or the reading of the body fails; the [non-JSON] error
    object when the body does not parse, or parses to null; and for a
    body that parses to an object, the body as it came when the object
    has an id of its own that is not null, and else the object with the
    request's id assigned, or the [non-JSON] error object when that
    object cannot be serialised.  The error objects and the repaired
    object carry the request's id.  A reply that parses to a value that
    is neither null nor an object is left aside. *)
Theorem request_gets_one_outcome p k msg id o :
  exitCode p = None ->
  nth_error (awaiting p) k = Some msg ->
  classify msg = Returned (Request id) ->
  let bridge_error err :=
    JSON_stringify (error_reply id ("Bridge error: " ++ message err)) ++ LF in
  let not_json :=
    JSON_stringify (error_reply id "Server returned non-JSON response")
    ++ LF in
  exists p',
    step p (Settle k o) = Some p'
    /\ (forall text, carries_id (error_reply id text) id)
    /\ (forall reply, carries_id (JObject (assign "id" id reply)) id)
    /\ match o with
       | FetchRejected err => stdout p' = app (stdout p) [bridge_error err]
       | Response status text =>
           if status =? 204 then stdout p' = stdout p
           else
             match text with
             | TextRejected err =>
                 stdout p' = app (stdout p) [bridge_error err]
             | Body body =>
                 if (body =? "")%string then stdout p' = stdout p
                 else
                   match JSON_parse body with
                   | None | Some JNull =>
                       stdout p' = app (stdout p) [not_json]
                   | Some (JObject reply) =>
                       match member "id" reply with
                       | Some JNull | None =>
                           stdout p' =
                             app (stdout p)
                               [if serialises (JObject (assign "id" id reply))
                                then JSON_stringify
                                       (JObject (assign "id" id reply)) ++ LF
                                else not_json]
                       | Some _ => stdout p' = app (stdout p) [body ++ LF]
                       end
                   | Some _ => True
                   end
             end
       end.
Proof.
  intros Hrun Hk Hc bridge_error not_json.
  rewrite (step_settle _ _ _ _ Hrun Hk).
  eexists; split; [reflexivity|].
  split; [intro text; apply error_reply_carries_id|].
  split.
  { intro reply. eexists; split; [reflexivity|apply member_assign_same]. }
  subst bridge_error not_json.
  apply classify_request in Hc as (v & Hget & Hid).
  destruct o as [err | status [body | err]].
  - settle_with p.
  - destruct (status =? 204) eqn:Hs; [settle_with p|].
    destruct (body =? "")%string eqn:Hb; [settle_with p|].
    destruct (JSON_parse body) as [parsed|] eqn:Hparse; [|settle_with p].
    destruct parsed as [|b|n|s|items|reply]; try exact I; [settle_with p|].
    destruct (member "id" reply) as [own|] eqn:Hown.
    + destruct own; try (settle_with p; fail);
        destruct (serialises (JObject (assign "id" id reply))) eqn:Hser;
        settle_with p.
    + destruct (serialises (JObject (assign "id" id reply))) eqn:Hser;
        settle_with p.
  - destruct (status =? 204) eqn:Hs; settle_with p.
Qed.

(** ** The other turns of the event loop *)

Lemma start_frame raw p :
  let p' := snd (handleMessage_start raw p) in
  url p' = url p /\ authHeader p' = authHeader p
  /\ stdinClosed p' = stdinClosed p
  /\ ((exitCode p' = exitCode p
       /\ stdout p' = stdout p /\ stderr p' = stderr p
       /\ pending p' = pending p /\ awaiting p' = awaiting p
       /\ fetched p' = fetched p)
      \/ (exists msg,
            JSON_parse raw = Some msg /\ dispatched msg
            /\ serialises msg = true
            /\ fst (handleMessage_start raw p) = Returned tt
            /\ exitCode p' = exitCode p
            /\ stdout p' = stdout p /\ stderr p' = stderr p
            /\ pending p' = pending p + 1
            /\ awaiting p' = app (awaiting p) [msg]
            /\ fetched p' =
                 app (fetched p)
                   [{| request_url := url p;
                       request_method := "POST";
                       request_headers := headers (authHeader p);
                       request_body := JSON_stringify msg |}])
      \/ (exists msg,
            JSON_parse raw = Some msg /\ dispatched msg
            /\ serialises msg = false
            /\ exitCode p' =
                 (if stdinClosed p && (pending p =? 0) then Some 0
                  else exitCode p)
            /\ (stdout p' = stdout p
                \/ exists text, stdout p' = app (stdout p) [text ++ LF])
            /\ (exists text, stderr p' = app (stderr p) [text ++ LF])
            /\ pending p' = pending p /\ awaiting p' = awaiting p
            /\ fetched p' = fetched p)).
Proof.
  unfold_eff. simpl.
  destruct (JSON_parse raw) as [msg|]; simpl; [|intuition].
  destruct (Get msg "method") as [method|e] eqn:Hget; simpl; [|intuition].
  destruct (ToBoolean method) eqn:Ht; simpl; [|intuition].
  assert (Hd : dispatched msg) by (exists method; auto).
  destruct (serialises msg) eqn:Hser; simpl.
  - repeat (split; [reflexivity|]). right; left. exists msg.
    repeat split; auto.
  - assert (Hz : (pending p + 1 - 1 =? 0) = (pending p =? 0))
      by (f_equal; lia).
    destruct (Get msg "id") as [v|e]; simpl;
      [destruct (not_null v) as [id|]; simpl;
       [destruct (serialises (error_reply id _)); simpl|]|];
      rewrite Hz; destruct (stdinClosed p && (pending p =? 0)); simpl;
      repeat (split; [reflexivity|]); right; right; exists msg;
      (split; [reflexivity|]); (split; [assumption|]);
      (split; [exact Hser|]); (split; [reflexivity|]);
      (split; [(left; reflexivity) || (right; eexists; reflexivity)|]);
      (split; [exists ("[bridge] Request failed: "
                       ++ "Maximum call stack size exceeded");
               reflexivity|]);
      repeat split; try reflexivity; lia.
Qed.

Lemma close_frame p :
  let p' := snd (on_close p) in
  url p' = url p /\ authHeader p' = authHeader p
  /\ stdinClosed p' = true /\ fetched p' = fetched p
  /\ awaiting p' = awaiting p /\ pending p' = pending p
  /\ stdout p' = stdout p /\ stderr p' = stderr p
  /\ exitCode p' = if pending p =? 0 then Some 0 else exitCode p.
Proof.
  unfold_eff. simpl. destruct (pending p =? 0); simpl; repeat split.
Qed.

Lemma unhandled_frame {A} (r : Result A) p :
  let p' := unhandled (r, p) in
  url p' = url p /\ authHeader p' = authHeader p
  /\ stdinClosed p' = stdinClosed p /\ fetched p' = fetched p
  /\ awaiting p' = awaiting p /\ pending p' = pending p
  /\ stdout p' = stdout p /\ stderr p' = stderr p
  /\ exitCode p' = match r, exitCode p with
                   | Threw _, None => Some 1
                   | _, c => c
                   end.
Proof.
  destruct r; simpl; [repeat split|].
  destruct (exitCode p) eqn:E; simpl; repeat split; auto.
Qed.

Lemma length_remove_nth {A} (l : list A) k x :
  nth_error l k = Some x -> length l = S (length (remove_nth k l)).
Proof.
  revert k; induction l as [|y l IH]; intros [|k] H; simpl in *;
    try discriminate; auto.
Qed.

Lemma Forall_remove_nth {A} (P : A -> Prop) (l : list A) k :
  Forall P l -> Forall P (remove_nth k l).
Proof.
  intro H; revert k; induction H; intros [|k]; simpl; auto.
Qed.

(** ** Runs *)

Lemma run_invariant (I : Process -> Prop) :
  (forall p e p', I p -> step p e = Some p' -> I p') ->
  forall events p q, I p -> run p events = Some q -> I q.
Proof.
  intros Hstep events; induction events as [|e rest IH]; intros p q Hp; simpl.
  - intro H; inversion H; subst; exact Hp.
  - destruct (step p e) as [p'|] eqn:E; [|discriminate]. eauto.
Qed.

Lemma balanced_main argv2 argv3 : balanced (main argv2 argv3).
Proof.
  unfold balanced, drained, main.
  destruct argv2 as [u|]; simpl; [destruct (u =? "")%string; simpl|];
    repeat split; auto; intros; try discriminate; intuition discriminate.
Qed.

Lemma balanced_step p e p' : balanced p -> step p e = Some p' -> balanced p'.
Proof.
  unfold balanced, drained, step. intros (Hn & Hd & Hx).
  destruct (exitCode p) eqn:Hrun; [discriminate|].
  assert (Hopen : ~ (stdinClosed p = true /\ pending p = 0)).
  { intro H. apply Hx in H. discriminate. }
  destruct e as [raw| |k o].
  - intro H; inversion H; subst; clear H.
    destruct (handleMessage_start raw p) as [r q] eqn:E.
    pose proof (start_frame raw p) as F. rewrite E in F. simpl in F.
    destruct F as (_ & _ & Hc & Hcase).
    pose proof (unhandled_frame r q) as (_ & _ & Hc' & _ & Ha' & Hp' & _ & _ & He').
    rewrite Hc', Ha', Hp', He', Hc.
    assert (Hcl : stdinClosed p && (pending p =? 0) = false).
    { destruct (stdinClosed p) eqn:Ec; simpl; [|reflexivity].
      apply Z.eqb_neq. intro Hz. apply Hopen; auto. }
    destruct Hcase
      as [(He & _ & _ & Hp & Ha & _)
         | [(msg & _ & Hm & _ & _ & He & _ & _ & Hp & Ha & _)
           | (msg & _ & _ & _ & He & _ & _ & Hp & Ha & _)]];
      rewrite Hp, Ha, He; rewrite ?Hcl, ?Hrun.
    + split; [assumption|]. split; [assumption|]. split.
      * destruct r; intro; discriminate.
      * intros [? ?]; exfalso; apply Hopen; auto.
    + rewrite length_app, Nat2Z.inj_add. simpl.
      split; [lia|]. split; [apply Forall_app; auto|]. split.
      * destruct r; intro; discriminate.
      * intros [_ ?]; lia.
    + split; [assumption|]. split; [assumption|]. split.
      * destruct r; intro; discriminate.
      * intros [? ?]; exfalso; apply Hopen; auto.
  - intro H; inversion H; subst; clear H.
    pose proof (close_frame p) as (_ & _ & Hc & _ & Ha & Hp & _ & _ & He).
    rewrite Hc, Ha, Hp, He, Hrun.
    split; [assumption|]. split; [assumption|]. split.
    + destruct (pending p =? 0) eqn:E; [|discriminate].
      intros _. split; [reflexivity|now apply Z.eqb_eq].
    + intros [_ H]. now rewrite H.
  - destruct (nth_error (awaiting p) k) as [msg|] eqn:Hk; [|discriminate].
    intro H; inversion H; subst; clear H.
    set (p1 := with_awaiting (remove_nth k (awaiting p)) p).
    destruct (handleMessage_resume msg o p1) as [r q] eqn:E.
    pose proof (resume_frame msg o p1) as F. rewrite E in F. simpl in F.
    destruct F as (_ & _ & Hc & _ & Ha & Hp & He).
    pose proof (unhandled_frame r q) as (_ & _ & Hc' & _ & Ha' & Hp' & _ & _ & He').
    rewrite Hc', Ha', Hp', He', He, Hc, Ha, Hp. simpl.
    rewrite Hrun. apply length_remove_nth in Hk.
    split; [lia|]. split; [now apply Forall_remove_nth|]. split.
    + destruct (stdinClosed p); simpl; [|destruct r; discriminate].
      destruct (pending p - 1 =? 0) eqn:E0; [|destruct r; discriminate].
      intros _. split; [reflexivity|now apply Z.eqb_eq].
    + intros [Hcl Hz]. rewrite Hcl. simpl.
      apply Z.eqb_eq in Hz. rewrite Hz. destruct r; reflexivity.
Qed.

Lemma run_balanced argv2 argv3 events p :
  run (main argv2 argv3) events = Some p -> balanced p.
Proof.
  apply (run_invariant balanced); [exact balanced_step|apply balanced_main].
Qed.

(** C6.  [confirmed]  In every state a run of the bridge reaches, the
    process has exited with code 0 exactly when stdin is closed and
    [pending] is 0; so it never has while [pending] is positive.  The
    rule holds again right after each settled exchange, which takes one
    off [pending], and right after the close of stdin; and when stdin
    closes before any line, the process exits with code 0 at once. *)
Theorem exit_rule argv2 argv3 events p :
  run (main argv2 argv3) events = Some p ->
  (exitCode p = Some 0 <-> stdinClosed p = true /\ pending p = 0)
  /\ (pending p > 0 -> exitCode p <> Some 0)
  /\ (forall k o p',
        step p (Settle k o) = Some p' ->
        pending p' = pending p - 1
        /\ (exitCode p' = Some 0 <-> stdinClosed p' = true /\ pending p' = 0))
  /\ (forall p',
        step p Close = Some p' ->
        stdinClosed p' = true
        /\ (exitCode p' = Some 0 <-> stdinClosed p' = true /\ pending p' = 0))
  /\ (events = [] -> exitCode p = None ->
      exists p', step p Close = Some p' /\ exitCode p' = Some 0).
Proof.
  intro Hrun. pose proof (run_balanced _ _ _ _ Hrun) as Hb.
  assert (Hx := Hb). destruct Hx as (_ & _ & Hx).
  split; [exact Hx|]. split.
  { intros Hpos Hexit. apply Hx in Hexit as [_ Hz]. lia. }
  split.
  { intros k o p' Hstep.
    pose proof (balanced_step _ _ _ Hb Hstep) as (_ & _ & Hx').
    split; [|exact Hx'].
    unfold step in Hstep. destruct (exitCode p); [discriminate|].
    destruct (nth_error (awaiting p) k) as [msg|]; [|discriminate].
    inversion Hstep; subst; clear Hstep.
    set (p1 := with_awaiting (remove_nth k (awaiting p)) p).
    destruct (handleMessage_resume msg o p1) as [r q] eqn:E.
    pose proof (resume_frame msg o p1) as F. rewrite E in F. simpl in F.
    destruct F as (_ & _ & _ & _ & _ & Hp & _).
    pose proof (unhandled_frame r q) as (_ & _ & _ & _ & _ & Hp' & _).
    now rewrite Hp', Hp. }
  split.
  { intros p' Hstep.
    pose proof (balanced_step _ _ _ Hb Hstep) as (_ & _ & Hx').
    split; [|exact Hx'].
    unfold step in Hstep. destruct (exitCode p); [discriminate|].
    inversion Hstep; subst. apply close_frame. }
  intros -> Hopen. simpl in Hrun. inversion Hrun; subst; clear Hrun.
  unfold step. rewrite Hopen. eexists; split; [reflexivity|].
  pose proof (close_frame (main argv2 argv3)) as F. simpl in F.
  destruct F as (_ & _ & _ & _ & _ & _ & _ & _ & He). rewrite He.
  unfold main. destruct argv2 as [u|]; simpl;
    [destruct (u =? "")%string|]; reflexivity.
Qed.

(** ** The credential *)

Lemma configured_step u auth p e p' :
  configured u auth p -> step p e = Some p' -> configured u auth p'.
Proof.
  unfold configured, step. intros (Hu & Ha & Hf).
  destruct (exitCode p); [discriminate|].
  destruct e as [raw| |k o].
  - intro H; inversion H; subst; clear H.
    destruct (handleMessage_start raw p) as [r q] eqn:E.
    pose proof (start_frame raw p) as F. rewrite E in F. simpl in F.
    destruct F as (Hu1 & Ha1 & _ & Hcase).
    pose proof (unhandled_frame r q) as (Hu2 & Ha2 & _ & Hf2 & _).
    rewrite Hu2, Ha2, Hf2, Hu1, Ha1.
    split; [reflexivity|]. split; [reflexivity|].
    destruct Hcase
      as [(_ & _ & _ & _ & _ & Hf1)
         | [(msg & _ & _ & _ & _ & _ & _ & _ & _ & _ & Hf1)
           | (msg & _ & _ & _ & _ & _ & _ & _ & _ & Hf1)]];
      rewrite Hf1; [assumption| |assumption].
    apply Forall_app; split; [assumption|].
    constructor; [|constructor]. simpl. auto.
  - intro H; inversion H; subst; clear H.
    pose proof (close_frame p) as (Hu1 & Ha1 & _ & Hf1 & _).
    now rewrite Hu1, Ha1, Hf1.
  - destruct (nth_error (awaiting p) k) as [msg|]; [|discriminate].
    intro H; inversion H; subst; clear H.
    set (p1 := with_awaiting (remove_nth k (awaiting p)) p).
    destruct (handleMessage_resume msg o p1) as [r q] eqn:E.
    pose proof (resume_frame msg o p1) as F. rewrite E in F. simpl in F.
    destruct F as (Hu1 & Ha1 & _ & Hf1 & _).
    pose proof (unhandled_frame r q) as (Hu2 & Ha2 & _ & Hf2 & _).
    now rewrite Hu2, Ha2, Hf2, Hu1, Ha1, Hf1.
Qed.

Lemma configured_main u argv3 :
  u <> "" -> configured u (make_authHeader argv3) (main (Some u) argv3).
Proof.
  intro Hu. apply String.eqb_neq in Hu.
  unfold configured, main. rewrite Hu. simpl. auto.
Qed.

(** C7, as the code has it.  [corrected]  The authorization value is
    [Basic ] followed by the base64 of [user:] and the secret for every
    secret that is not the empty string; there is none when the secret is
    absent or empty.  It is fixed at startup: in every state of a run the
    constant has that value and every exchange made carried exactly the
    content type and, when there is a value, that authorization. *)
Theorem credential_fixed u argv3 events p :
  u <> "" ->
  run (main (Some u) argv3) events = Some p ->
  authHeader p =
    match argv3 with
    | Some secret =>
        if (secret =? "")%string then None
        else Some ("Basic " ++ base64 ("user:" ++ secret))
    | None => None
    end
  /\ Forall (fun r =>
              request_headers r =
                match authHeader p with
                | Some h => [("Content-Type", "application/json");
                             ("Authorization", h)]
                | None => [("Content-Type", "application/json")]
                end) (fetched p).
Proof.
  intros Hu Hrun.
  assert (Hc : configured u (make_authHeader argv3) p).
  { revert Hrun. apply (run_invariant (configured u (make_authHeader argv3))).
    - apply configured_step.
    - now apply configured_main. }
  destruct Hc as (_ & Ha & Hf). rewrite Ha. split.
  - unfold make_authHeader. destruct argv3 as [secret|]; [|reflexivity].
    destruct (secret =? "")%string; reflexivity.
  - eapply Forall_impl; [|exact Hf]. intros r (_ & _ & Hh). rewrite Hh.
    destruct (make_authHeader argv3); reflexivity.
Qed.

(** ** Classification *)

Lemma dispatched_object msg :
  dispatched msg -> exists members, msg = JObject members.
Proof.
  intros (method & Hget & Ht).
  destruct msg; simpl in Hget; try discriminate;
    try (inversion Hget; subst; discriminate).
  eauto.
Qed.

Lemma dispatched_classified msg :
  dispatched msg -> exists kind, classify msg = Returned kind.
Proof.
  intro H. apply dispatched_object in H as (members & ->).
  unfold classify. simpl. eauto.
Qed.

(** C2, as the code has it.  [corrected]  A message that passes the test
    of [method] is treated as a request exactly when it has the key [id]
    with a value that is not null, and as a notification exactly when the
    key is absent or its value is null.  Among the values that are not
    null, none is set apart: 0, the empty string and false make a request
    like any other.  The treatment shows when the exchange fails: stdout
    is left as it was exactly for a notification. *)
Theorem classification msg method :
  Get msg "method" = Returned method ->
  ToBoolean method = true ->
  exists kind,
    classify msg = Returned kind
    /\ (forall id,
          kind = Request id <->
          exists members,
            msg = JObject members
            /\ member "id" members = Some id /\ id <> JNull)
    /\ (kind = Notification <->
        exists members,
          msg = JObject members
          /\ (member "id" members = None \/ member "id" members = Some JNull))
    /\ (forall p k err,
          exitCode p = None ->
          nth_error (awaiting p) k = Some msg ->
          exists p',
            step p (Settle k (FetchRejected err)) = Some p'
            /\ (kind = Notification <-> stdout p' = stdout p)).
Proof.
  intros Hget Ht.
  destruct (dispatched_classified msg) as (kind & Hkind);
    [exists method; auto|].
  exists kind. split; [exact Hkind|].
  destruct (dispatched_object msg) as (members & ->); [exists method; auto|].
  unfold classify in Hkind. simpl in Hkind.
  split; [|split].
  - intro id. destruct (member "id" members) as [own|] eqn:Hown.
    + split.
      * intros ->. exists members. split; [reflexivity|].
        destruct own; simpl in Hkind; inversion Hkind; subst;
          split; auto; discriminate.
      * intros (ms & Hm & Hi & Hn). inversion Hm; subst.
        rewrite Hown in Hi. inversion Hi; subst.
        destruct id; simpl in Hkind; inversion Hkind; subst; auto.
        exfalso; apply Hn; reflexivity.
    + simpl in Hkind. inversion Hkind; subst. split; [discriminate|].
      intros (ms & Hm & Hi & _). inversion Hm; subst. congruence.
  - destruct (member "id" members) as [own|] eqn:Hown.
    + split.
      * intros ->. exists members. split; [reflexivity|]. right.
        destruct own; simpl in Hkind; inversion Hkind. exact Hown.
      * intros (ms & Hm & [Hi|Hi]); inversion Hm; subst;
          rewrite Hown in Hi; [discriminate|].
        inversion Hi; subst. simpl in Hkind. now inversion Hkind.
    + simpl in Hkind. inversion Hkind; subst.
      split; [exists members; auto|reflexivity].
  - intros p k err Hrun Hk. rewrite (step_settle _ _ _ _ Hrun Hk).
    eexists; split; [reflexivity|].
    assert (Hc : classify (JObject members) = Returned kind)
      by (unfold classify; simpl; exact Hkind).
    destruct (resume_rejected (JObject members) kind err
                (with_awaiting (remove_nth k (awaiting p)) p) Hc)
      as (_ & Hout).
    rewrite Hout. simpl. destruct kind as [id|].
    + split; [discriminate|]. intro H. apply (f_equal (@length string)) in H.
      rewrite length_app in H. simpl in H. lia.
    + rewrite app_nil_r. split; reflexivity.
Qed.

End Properties.

(** ** Input lines *)

Section Lines.
Context {platform : Platform}.

(** X1.  A line that does not parse, or whose value has no truthy
    [method] and is not null, changes nothing: no write, no exchange, the
    same [pending], and the process goes on. *)
Lemma discarded_silently p raw :
  exitCode p = None ->
  JSON_parse raw = None
  \/ (exists msg method,
        JSON_parse raw = Some msg
        /\ Get msg "method" = Returned method /\ ToBoolean method = false) ->
  step p (Line raw) = Some p.
Proof.
  intros Hrun H. unfold step. rewrite Hrun.
  cbv [handleMessage_start bind lift ret].
  destruct H as [-> | (msg & method & -> & -> & ->)]; reflexivity.
Qed.

(** X2.  A line whose value has a truthy [method] is serialised at line
    56.  When that returns, the line opens an exchange: one more pending,
    one call of [fetch] with the serialised message, nothing written.
    When it throws, no exchange is opened and the turn itself runs the
    catch and the finally: [pending] is back at its value, the failure is
    logged, a notification gets nothing, and a request gets the bridge
    error at once; when the error object does not serialise either,
    nothing goes to stdout and the process ends. *)
Lemma line_dispatched p raw msg :
  exitCode p = None ->
  JSON_parse raw = Some msg ->
  dispatched msg ->
  exists p',
    step p (Line raw) = Some p'
    /\ if serialises msg then
         exitCode p' = None
         /\ pending p' = pending p + 1
         /\ awaiting p' = app (awaiting p) [msg]
         /\ stdout p' = stdout p /\ stderr p' = stderr p
         /\ fetched p' =
              app (fetched p)
                [{| request_url := url p;
                    request_method := "POST";
                    request_headers := headers (authHeader p);
                    request_body := JSON_stringify msg |}]
       else
         let text := "Maximum call stack size exceeded" in
         let drains := stdinClosed p && (pending p =? 0) in
         pending p' = pending p
         /\ awaiting p' = awaiting p
         /\ fetched p' = fetched p
         /\ stderr p' =
              app (stderr p) ["[bridge] Request failed: " ++ text ++ LF]
         /\ exists kind,
              classify msg = Returned kind
              /\ match kind with
                 | Notification =>
                     stdout p' = stdout p
                     /\ exitCode p' = (if drains then Some 0 else None)
                 | Request id =>
                     let reply :=
                       error_reply id ("Bridge error: " ++ text) in
                     if serialises reply then
                       stdout p' =
                         app (stdout p) [JSON_stringify reply ++ LF]
                       /\ exitCode p' = (if drains then Some 0 else None)
                     else
                       stdout p' = stdout p
                       /\ exitCode p' = Some (if drains then 0 else 1)
                 end.
Proof.
  intros Hrun Hparse (method & Hget & Ht). unfold step. rewrite Hrun.
  eexists; split; [reflexivity|].
  assert (Hz : (pending p + 1 - 1 =? 0) = (pending p =? 0))
    by (f_equal; lia).
  assert (Hp : pending p + 1 - 1 = pending p) by lia.
  cbv [handleMessage_start bind lift ret read modify fetch stringify
       try_catch try_finally throw stdout_write stderr_write maybeExit
       process_exit].
  rewrite Hparse, Hget, Ht. simpl.
  destruct (serialises msg) eqn:Hser; simpl.
  - repeat split; assumption.
  - unfold classify.
    destruct msg as [| b | n | s | items | members];
      try discriminate Hget; simpl.
    1-4: rewrite Hz; destruct (stdinClosed p && (pending p =? 0)); simpl;
         rewrite ?Hrun; simpl;
         (split; [exact Hp|]);
         repeat split; eexists; (split; [reflexivity|]); split; reflexivity.
    destruct (member "id" members) as [[| b | n | s | items | ms] |];
      simpl.
    1, 7: rewrite Hz; destruct (stdinClosed p && (pending p =? 0)); simpl;
          rewrite ?Hrun; simpl;
          (split; [exact Hp|]);
          repeat split; eexists; (split; [reflexivity|]); split; reflexivity.
    all: match goal with
         | |- context [serialises ?v] =>
             destruct (serialises v) eqn:Hreply
         end;
         simpl; rewrite Hz;
         destruct (stdinClosed p && (pending p =? 0)); simpl;
         rewrite ?Hrun; simpl;
         (split; [exact Hp|]);
         repeat split; eexists; (split; [reflexivity|]); simpl;
         rewrite Hreply; split; reflexivity.
Qed.

(** A line whose value is null is not discarded: reading [method] off it
    throws outside every [try], and the process ends with code 1. *)
Lemma null_line_throws p raw :
  exitCode p = None ->
  JSON_parse raw = Some JNull ->
  step p (Line raw) = Some (with_exitCode (Some 1) p).
Proof.
  intros Hrun H. unfold step. rewrite Hrun.
  cbv [handleMessage_start bind lift ret]. rewrite H. simpl.
  now rewrite Hrun.
Qed.

(** Without the endpoint argument, or with an empty one, the process has
    exited with code 1 before any event: no exchange was made, and no
    event is handled. *)
Lemma missing_endpoint_exits argv2 argv3 :
  argv2 = None \/ argv2 = Some "" ->
  exitCode (main argv2 argv3) = Some 1
  /\ fetched (main argv2 argv3) = []
  /\ stdout (main argv2 argv3) = []
  /\ forall e, step (main argv2 argv3) e = None.
Proof.
  intros [-> | ->]; repeat split.
Qed.
End Lines.

(** * The code on sample inputs *)

Import Sample.

(** C8.  [code bug]  The line [null] parses, to null, and is not
    discarded: the process, started and waiting for input, ends with
    code 1. *)
Theorem null_line_ends_the_process :
  JSON_parse "null" = Some JNull
  /\ exitCode (main (Some endpoint) None) = None
  /\ option_map exitCode (run (main (Some endpoint) None) [Line "null"])
     = Some (Some 1)
  /\ option_map stdinClosed (run (main (Some endpoint) None) [Line "null"])
     = Some false.
Proof. repeat split. Qed.

(** C9.  [code bug]  A started bridge with a request open and stdin
    not closed ends with code 1 on the line [null]: an exit that is
    neither the startup error nor the drain. *)
Theorem exit_outside_the_two_paths :
  let events := [Line ping; Line "null"] in
  exitCode (main (Some endpoint) None) = None
  /\ option_map exitCode (run (main (Some endpoint) None) events)
     = Some (Some 1)
  /\ option_map stdinClosed (run (main (Some endpoint) None) events)
     = Some false
  /\ option_map pending (run (main (Some endpoint) None) events) = Some 1.
Proof. repeat split. Qed.

(** ** Where the code departs from the claims *)

(** Against C1: the request [ping], id 5, gets no output at all from a
    reply of status 204, and from a reply that has the id 7 it gets that
    reply as it came, id 7 included. *)
Lemma request_without_output :
  JSON_parse ping = Some ping_msg
  /\ classify ping_msg = Returned (Request (JNumber 5))
  /\ option_map stdout
       (run (main (Some endpoint) None)
          [Line ping; Settle 0 (Response 204 (Body ""))]) = Some []
  /\ option_map pending
       (run (main (Some endpoint) None)
          [Line ping; Settle 0 (Response 204 (Body ""))]) = Some 0
  /\ option_map stdout
       (run (main (Some endpoint) None)
          [Line ping; Settle 0 (Response 200 (Body reply_other_id))])
     = Some [reply_other_id ++ LF].
Proof. repeat split. Qed.

(** Against C2: a message with the key [id] and the value null is
    treated as a notification, a failed exchange gets it no error; and a
    message with an id and an empty [method] is not treated at all, no
    exchange is opened for it. *)
Lemma id_key_does_not_make_a_request :
  JSON_parse ping_null_id = Some ping_null_id_msg
  /\ has_id_key ping_null_id_msg = true
  /\ classify ping_null_id_msg = Returned Notification
  /\ option_map stdout
       (run (main (Some endpoint) None)
          [Line ping_null_id; Settle 0 (FetchRejected refused)]) = Some []
  /\ JSON_parse ping_empty_method = Some ping_empty_method_msg
  /\ has_id_key ping_empty_method_msg = true
  /\ run (main (Some endpoint) None) [Line ping_empty_method]
     = Some (main (Some endpoint) None).
Proof. repeat split. Qed.

(** Against C3: the request [ping], id 5, gets a reply that parses to
    an object without an id, whose result is nested ten thousand arrays
    deep.  The repaired object cannot be serialised, and the request
    gets the [non-JSON] error in place of the reply. *)
Lemma deep_reply_not_repaired :
  JSON_parse reply_deep = Some (JObject reply_deep_members)
  /\ member "id" reply_deep_members = None
  /\ classify ping_msg = Returned (Request (JNumber 5))
  /\ serialises (JObject (assign "id" (JNumber 5) reply_deep_members))
     = false
  /\ option_map stdout
       (run (main (Some endpoint) None)
          [Line ping; Settle 0 (Response 200 (Body reply_deep))])
     = Some [Reference.dq ("{'jsonrpc':'2.0','id':5,'error':"
                ++ "{'code':-32603,"
                ++ "'message':'Server returned non-JSON response'}}")
             ++ LF].
Proof. repeat split. Qed.

(** Against C5: for a notification, a body that does not parse leaves
    stderr as it was. *)
Lemma notification_not_logged :
  JSON_parse "oops" = None
  /\ classify initialized_msg = Returned Notification
  /\ option_map stderr
       (run (main (Some endpoint) None)
          [Line initialized; Settle 0 (Response 500 (Body "oops"))])
     = option_map stderr (run (main (Some endpoint) None) [Line initialized])
  /\ option_map stderr
       (run (main (Some endpoint) None)
          [Line initialized; Settle 0 (Response 500 (Body "oops"))])
     = Some ["[bridge] Connected to " ++ endpoint ++ LF].
Proof. repeat split. Qed.

(** Against C7: the empty secret gives no authorization value, where the
    claim asks for [Basic dXNlcjo=], and the exchange carries none. *)
Lemma empty_secret_no_header :
  make_authHeader (Some "") = None
  /\ "Basic " ++ base64 ("user:" ++ "") = "Basic dXNlcjo="
  /\ option_map (fun p => map request_headers (fetched p))
       (run (main (Some endpoint) (Some "")) [Line ping])
     = Some [[("Content-Type", "application/json")]].
Proof. repeat split. Qed.

(** ** A message too deep to serialise *)

(** The request [ping_deep] is not posted: line 56 throws, and the turn
    of the line itself logs the failure and answers with the bridge
    error.  No exchange is left open. *)
Lemma deep_line_answered_at_once :
  option_map
    (fun p => (fetched p, pending p, exitCode p, stderr p, stdout p))
    (run (main (Some endpoint) None) [Line ping_deep])
  = Some ([], 0, None,
          ["[bridge] Connected to " ++ endpoint ++ LF;
           "[bridge] Request failed: Maximum call stack size exceeded" ++ LF],
          [Reference.dq
             ("{'jsonrpc':'2.0','id':5,'error':{'code':-32603,"
              ++ "'message':'Bridge error: Maximum call stack size exceeded'}}")
           ++ LF]).
Proof. reflexivity. Qed.

(** With the id as deep, the error object of lines 95-99 cannot be
    serialised either: the catch throws, nothing reaches stdout, and the
    process ends with code 1. *)
Lemma deep_id_ends_the_process :
  option_map (fun p => (fetched p, pending p, exitCode p, stdout p))
    (run (main (Some endpoint) None) [Line ping_deep_id])
  = Some ([], 0, Some 1, []).
Proof. reflexivity. Qed.

(** ** The theorems at sample inputs *)

Lemma empty_body_no_output_witness :
  exitCode (after None [Line ping]) = None
  /\ nth_error (awaiting (after None [Line ping])) 0 = Some ping_msg
  /\ exists p',
      step (after None [Line ping]) (Settle 0 (Response 200 (Body "")))
        = Some p'
      /\ stdout p' = stdout (after None [Line ping]).
Proof.
  split; [reflexivity|]. split; [reflexivity|].
  apply (empty_body_no_output (after None [Line ping]) 0 ping_msg 200);
    reflexivity.
Defined.

Lemma transport_failure_reply_witness :
  classify ping_msg = Returned (Request (JNumber 5))
  /\ exists p',
      step (after None [Line ping]) (Settle 0 (FetchRejected refused))
        = Some p'
      /\ stderr p' = ["[bridge] Connected to " ++ endpoint ++ LF;
                      "[bridge] Request failed: fetch failed" ++ LF]
      /\ stdout p' =
           [Reference.dq ("{'jsonrpc':'2.0','id':5,'error':"
                ++ "{'code':-32603,'message':'Bridge error: fetch failed'}}")
            ++ LF].
Proof.
  split; [reflexivity|].
  apply (transport_failure_reply (after None [Line ping]) 0 ping_msg
           (@Request reference (JNumber 5)) refused); reflexivity.
Defined.

Lemma unparsable_body_reply_witness :
  JSON_parse "oops" = None
  /\ exists p',
      step (after None [Line ping]) (Settle 0 (Response 500 (Body "oops")))
        = Some p'
      /\ (String.length (substring0 200 "oops") <= 200)%nat
      /\ stderr p' = ["[bridge] Connected to " ++ endpoint ++ LF;
                      "[bridge] Non-JSON response: oops" ++ LF]
      /\ stdout p' =
           [Reference.dq ("{'jsonrpc':'2.0','id':5,'error':"
                ++ "{'code':-32603,"
                ++ "'message':'Server returned non-JSON response'}}")
            ++ LF].
Proof.
  split; [reflexivity|].
  apply (unparsable_body_reply (after None [Line ping]) 0 ping_msg
           (@Request reference (JNumber 5)) 500 "oops");
    try reflexivity; discriminate.
Defined.

Lemma object_reply_relayed_witness :
  JSON_parse reply_no_id = Some (JObject reply_no_id_members)
  /\ classify ping0_msg = Returned (Request (JNumber 0))
  /\ exists p',
      step (after None [Line ping0])
        (Settle 0 (Response 200 (Body reply_no_id))) = Some p'
      /\ stdout p' = [Reference.dq "{'jsonrpc':'2.0','result':{},'id':0}" ++ LF].
Proof.
  split; [reflexivity|]. split; [reflexivity|].
  destruct (object_reply_relayed (after None [Line ping0]) 0 ping0_msg
              (@Request reference (JNumber 0)) 200 reply_no_id
              reply_no_id_members)
    as (p' & Hstep & Hout & _);
    try reflexivity; try discriminate.
  exists p'. split; [exact Hstep|]. rewrite Hout. reflexivity.
Defined.

Lemma request_gets_one_outcome_witness :
  classify ping_msg = Returned (Request (JNumber 5))
  /\ exists p',
      step (after None [Line ping])
        (Settle 0 (Response 200 (Body reply_other_id))) = Some p'
      /\ stdout p' = [reply_other_id ++ LF].
Proof.
  split; [reflexivity|].
  destruct (request_gets_one_outcome (after None [Line ping]) 0 ping_msg
              (JNumber 5 : JSON Z) (Response 200 (Body reply_other_id)))
    as (p' & Hstep & _ & _ & Hout); try reflexivity.
  exists p'. split; [exact Hstep|exact Hout].
Defined.

Lemma classification_witness :
  Get ping0_msg "method" = Returned (value (JString "ping"))
  /\ ToBoolean (value (JString "ping")) = true
  /\ exists kind,
      classify ping0_msg = Returned kind
      /\ (kind = Request (JNumber 0) <->
          exists members,
            ping0_msg = JObject members
            /\ member "id" members = Some (JNumber 0)
            /\ JNumber 0 <> (JNull : JSON number)).
Proof.
  split; [reflexivity|]. split; [reflexivity|].
  destruct (@classification reference ping0_msg (value (JString "ping")))
    as (kind & Hkind & Hreq & _); try reflexivity.
  exists kind. split; [exact Hkind|apply Hreq].
Defined.

Lemma exit_rule_witness :
  let events := [Line ping; Close; Settle 0 (Response 200 (Body ""))] in
  run (main (Some endpoint) None) events = Some (after None events)
  /\ (exitCode (after None events) = Some 0 <->
      stdinClosed (after None events) = true
      /\ pending (after None events) = 0).
Proof.
  intro events. split; [reflexivity|].
  exact (proj1 (exit_rule (Some endpoint) None events (after None events)
                  eq_refl)).
Defined.

Lemma credential_fixed_witness :
  endpoint <> ""
  /\ run (main (Some endpoint) (Some "secret")) [Line ping]
     = Some (after (Some "secret") [Line ping])
  /\ authHeader (after (Some "secret") [Line ping])
     = Some "Basic dXNlcjpzZWNyZXQ=".
Proof.
  split; [discriminate|]. split; [reflexivity|].
  destruct (credential_fixed endpoint (Some "secret") [Line ping]
              (after (Some "secret") [Line ping])) as (Hauth & _);
    [discriminate|reflexivity|].
  rewrite Hauth. reflexivity.
Defined.

(** * Further properties of [index.js] *)

Section Settling.
Context {platform : Platform}.

Ltac unfold_all :=
  cbv [handleMessage_resume handleMessage_start relay on_close maybeExit
       try_finally try_catch bind lift ret throw modify read
       stdout_write stderr_write process_exit fetch stringify].

Ltac rewrite_known :=
  repeat (match goal with H : _ = _ |- _ => rewrite H end; simpl).

Ltac settled p :=
  unfold_all; rewrite_known;
  destruct (stdinClosed p && (pending p - 1 =? 0)); simpl;
  rewrite ?app_nil_r; auto.

Lemma settle_step p k o msg :
  exitCode p = None ->
  nth_error (awaiting p) k = Some msg ->
  step p (Settle k o) =
    Some (unhandled (handleMessage_resume msg o
                       (with_awaiting (remove_nth k (awaiting p)) p))).
Proof. intros Hrun Hk. unfold step. now rewrite Hrun, Hk. Qed.

Lemma notification_reads msg :
  classify msg = Returned Notification ->
  exists v, Get msg "id" = Returned v /\ not_null v = None.
Proof.
  unfold classify. destruct (Get msg "id") as [v|e]; [|discriminate].
  destruct (not_null v) as [j|] eqn:E; intro H; inversion H; subst; eauto.
Qed.

Lemma request_reads msg id :
  classify msg = Returned (Request id) ->
  exists v, Get msg "id" = Returned v /\ not_null v = Some id.
Proof.
  unfold classify. destruct (Get msg "id") as [v|e]; [|discriminate].
  destruct (not_null v) as [j|] eqn:E; intro H; inversion H; subst; eauto.
Qed.

Lemma kind_reads msg kind :
  classify msg = Returned kind ->
  exists v, Get msg "id" = Returned v
            /\ not_null v = match kind with
                            | Request id => Some id
                            | Notification => None
                            end.
Proof.
  destruct kind; [apply request_reads|apply notification_reads].
Qed.

Lemma not_null_nullish v : nullish v = match not_null v with
                                       | Some _ => false
                                       | None => true
                                       end.
Proof. destruct v as [|[]]; reflexivity. Qed.

(** X3.  What a notification gets, outcome by outcome.  Stdout gets
    the reply body as it came, with a newline, when the reply is not of
    status 204 and its body is not empty and has an id of its own, and
    nothing in every other case: no synthesized error ever.  Stderr gets the
    [Request failed] line when the fetch or the reading of the body
    fails, and nothing otherwise. *)
Theorem notification_outcome p k msg o :
  exitCode p = None ->
  nth_error (awaiting p) k = Some msg ->
  classify msg = Returned Notification ->
  exists p',
    step p (Settle k o) = Some p'
    /\ stdout p' =
         app (stdout p)
           match o with
           | Response status (Body body) =>
               if (status =? 204) || (body =? "")%string then []
               else match own_id body with
                    | Some _ => [body ++ LF]
                    | None => []
                    end
           | _ => []
           end
    /\ stderr p' =
         app (stderr p)
           match o with
           | FetchRejected err => [request_failed err]
           | Response status (TextRejected err) =>
               if status =? 204 then [] else [request_failed err]
           | Response _ (Body _) => []
           end.
Proof.
  intros Hrun Hk Hc. rewrite (settle_step _ _ _ _ Hrun Hk).
  eexists; split; [reflexivity|].
  apply notification_reads in Hc as (v & Hget & Hid).
  unfold own_id, request_failed.
  destruct o as [err | status [body | err]].
  - settled p.
  - destruct (status =? 204) eqn:Hs; [settled p|].
    destruct (body =? "")%string eqn:Hb; [settled p|].
    destruct (JSON_parse body) as [parsed|] eqn:Hparse; [|settled p].
    destruct (Get parsed "id") as [w|e] eqn:Hw; [|settled p].
    pose proof (not_null_nullish w) as Hn.
    destruct (not_null w) as [own|] eqn:Hown; settled p.
  - destruct (status =? 204) eqn:Hs; settled p.
Qed.

(** X4.  A reply whose body parses, but to null, is handled as a body
    that does not parse: reading [id] off null throws inside the [try].
    A request gets the diagnostic and the [non-JSON] error with its id,
    a notification gets nothing. *)
Theorem null_reply_reported p k msg kind status body :
  exitCode p = None ->
  nth_error (awaiting p) k = Some msg ->
  classify msg = Returned kind ->
  status <> 204 ->
  body <> "" ->
  JSON_parse body = Some JNull ->
  exists p',
    step p (Settle k (Response status (Body body))) = Some p'
    /\ match kind with
       | Request id =>
           stderr p' =
             app (stderr p)
               ["[bridge] Non-JSON response: " ++ substring0 200 body ++ LF]
           /\ stdout p' =
               app (stdout p)
                 [JSON_stringify
                    (error_reply id "Server returned non-JSON response")
                  ++ LF]
       | Notification => stderr p' = stderr p /\ stdout p' = stdout p
       end.
Proof.
  intros Hrun Hk Hc Hs Hb Hparse. rewrite (settle_step _ _ _ _ Hrun Hk).
  eexists; split; [reflexivity|].
  apply Z.eqb_neq in Hs. apply String.eqb_neq in Hb.
  apply kind_reads in Hc as (v & Hget & Hid).
  destruct kind; settled p.
Qed.

(** X5.  When the response arrives but reading its body fails, the
    outcome is that of a failed fetch: the [Request failed] line on
    stderr and, for a request, the [Bridge error] object with its id on
    stdout.  Status 204 is the exception: the body is not read. *)
Theorem body_read_failure_reply p k msg kind status err :
  exitCode p = None ->
  nth_error (awaiting p) k = Some msg ->
  classify msg = Returned kind ->
  status <> 204 ->
  exists p',
    step p (Settle k (Response status (TextRejected err))) = Some p'
    /\ stderr p' = app (stderr p) [request_failed err]
    /\ stdout p' =
         app (stdout p)
           match kind with
           | Request id =>
               [JSON_stringify
                  (error_reply id ("Bridge error: " ++ message err)) ++ LF]
           | Notification => []
           end.
Proof.
  intros Hrun Hk Hc Hs. rewrite (settle_step _ _ _ _ Hrun Hk).
  eexists; split; [reflexivity|].
  apply Z.eqb_neq in Hs. unfold request_failed.
  apply kind_reads in Hc as (v & Hget & Hid).
  destruct kind; settled p.
Qed.

(** X6.  A reply of status 204, or with an empty body, is silent on both
    streams, for every message, and still closes the exchange: [pending]
    goes down by one and the exchange is no longer open. *)
Theorem no_content_silent p k msg o :
  exitCode p = None ->
  nth_error (awaiting p) k = Some msg ->
  no_content o = true ->
  exists p',
    step p (Settle k o) = Some p'
    /\ stdout p' = stdout p
    /\ stderr p' = stderr p
    /\ pending p' = pending p - 1
    /\ awaiting p' = remove_nth k (awaiting p).
Proof.
  intros Hrun Hk Ho. rewrite (settle_step _ _ _ _ Hrun Hk).
  eexists; split; [reflexivity|].
  destruct o as [err | status [body | err]]; simpl in Ho; try discriminate.
  - destruct (status =? 204) eqn:Hs; simpl in Ho;
      unfold_all; rewrite ?Hs, ?Ho; simpl;
      destruct (stdinClosed p && (pending p - 1 =? 0)); simpl; auto.
  - rewrite orb_false_r in Ho. unfold_all. rewrite Ho. simpl.
    destruct (stdinClosed p && (pending p - 1 =? 0)); simpl; auto.
Qed.
End Settling.

Section Runs.
Context {platform : Platform}.

Ltac unfold_turn :=
  cbv [handleMessage_resume handleMessage_start relay on_close maybeExit
       try_finally try_catch bind lift ret throw modify read
       stdout_write stderr_write process_exit fetch stringify].

Ltac split_cases :=
  repeat match goal with
         | |- context [match ?x with _ => _ end] =>
             lazymatch x with
             | context [match _ with _ => _ end] => fail
             | _ => destruct x eqn:?; simpl
             end
         end.

Lemma terminated_line (text : string) : terminated (text ++ LF).
Proof. exists text; reflexivity. Qed.

Lemma terminated_cons c (w : string) : terminated w -> terminated (String c w).
Proof. intros (text & ->). exists (String c text). reflexivity. Qed.

Ltac close_terminated :=
  repeat match goal with
         | |- Forall _ (_ ++ _)%list => apply Forall_app; split
         | |- Forall _ [] => constructor
         | |- Forall _ (_ :: _) => constructor
         | |- terminated (_ ++ LF) => apply terminated_line
         | |- terminated LF => apply (terminated_line "")
         | |- terminated (String _ EmptyString) => apply (terminated_line "")
         | |- terminated (String _ _) => apply terminated_cons
         | |- Forall _ _ => assumption
         end.

(** What one settled exchange adds to the two streams. *)
Lemma resume_writes msg o p :
  let p' := snd (handleMessage_resume msg o p) in
  (length (stdout p') <= S (length (stdout p)))%nat
  /\ (Forall terminated (stdout p) -> Forall terminated (stdout p'))
  /\ (Forall terminated (stderr p) -> Forall terminated (stderr p')).
Proof.
  unfold_turn. simpl. split_cases; simpl;
    rewrite ?length_app; simpl; (split; [lia|]);
    split; intro H; close_terminated.
Qed.

Lemma step_running p e p' : step p e = Some p' -> exitCode p = None.
Proof. unfold step. destruct (exitCode p); [discriminate|reflexivity]. Qed.

(** One turn, stream by stream. *)
Lemma step_writes p e p' :
  step p e = Some p' ->
  (Forall terminated (stdout p) -> Forall terminated (stdout p'))
  /\ (Forall terminated (stderr p) -> Forall terminated (stderr p')).
Proof.
  intro Hstep. pose proof (step_running _ _ _ Hstep) as Hrun.
  unfold step in Hstep. rewrite Hrun in Hstep.
  destruct e as [raw| |k o].
  - inversion Hstep; subst; clear Hstep.
    destruct (handleMessage_start raw p) as [r q] eqn:E.
    pose proof (start_frame raw p) as F. rewrite E in F. simpl in F.
    destruct F as (_ & _ & _ & Hcase).
    pose proof (unhandled_frame r q) as (_ & _ & _ & _ & _ & _ & Ho' & He' & _).
    rewrite Ho', He'.
    destruct Hcase
      as [(_ & Ho & He & _)
         | [(msg & _ & _ & _ & _ & _ & Ho & He & _)
           | (msg & _ & _ & _ & _ & Ho & (text & He) & _)]].
    + rewrite Ho, He. split; auto.
    + rewrite Ho, He. split; auto.
    + rewrite He. split; intro H.
      * destruct Ho as [Ho | (line & Ho)]; rewrite Ho;
          [assumption | close_terminated].
      * close_terminated.
  - inversion Hstep; subst; clear Hstep.
    pose proof (close_frame p) as (_ & _ & _ & _ & _ & _ & Ho & He & _).
    rewrite Ho, He. split; auto.
  - destruct (nth_error (awaiting p) k) as [msg|]; [|discriminate].
    inversion Hstep; subst; clear Hstep.
    set (p1 := with_awaiting (remove_nth k (awaiting p)) p).
    destruct (handleMessage_resume msg o p1) as [r q] eqn:E.
    pose proof (resume_writes msg o p1) as F. rewrite E in F. simpl in F.
    destruct F as (Hlen & Hout & Herr).
    pose proof (unhandled_frame r q) as (_ & _ & _ & _ & _ & _ & Ho' & He' & _).
    rewrite Ho', He'. split; auto.
Qed.

(** One turn, counter by counter. *)
Lemma step_counts p e p' :
  step p e = Some p' ->
  Z.of_nat (length (fetched p')) - pending p'
    = Z.of_nat (length (fetched p)) - pending p + Z.of_nat (settles_in [e])
  /\ (length (fetched p') <= length (fetched p) + lines_in [e])%nat
  /\ Z.of_nat (length (stdout p')) + pending p'
       <= Z.of_nat (length (stdout p)) + pending p
          + Z.of_nat (lines_in [e]).
Proof.
  intro Hstep. pose proof (step_running _ _ _ Hstep) as Hrun.
  unfold step in Hstep. rewrite Hrun in Hstep.
  destruct e as [raw| |k o].
  - inversion Hstep; subst; clear Hstep.
    destruct (handleMessage_start raw p) as [r q] eqn:E.
    pose proof (start_frame raw p) as F. rewrite E in F. simpl in F.
    destruct F as (_ & _ & _ & Hcase).
    pose proof (unhandled_frame r q)
      as (_ & _ & _ & Hf' & _ & Hp' & Ho' & _).
    rewrite Hf', Hp', Ho'. unfold settles_in, lines_in. simpl.
    destruct Hcase
      as [(_ & Ho & _ & Hp & _ & Hf)
         | [(msg & _ & _ & _ & _ & _ & Ho & _ & Hp & _ & Hf)
           | (msg & _ & _ & _ & _ & Ho & _ & Hp & _ & Hf)]].
    + rewrite Hp, Hf, Ho. lia.
    + rewrite Hp, Hf, Ho. rewrite length_app. simpl. lia.
    + rewrite Hp, Hf.
      destruct Ho as [Ho | (line & Ho)]; rewrite Ho;
        rewrite ?length_app; simpl; lia.
  - inversion Hstep; subst; clear Hstep.
    pose proof (close_frame p) as (_ & _ & _ & Hf & _ & Hp & Ho & _).
    rewrite Hf, Hp, Ho. unfold settles_in, lines_in. simpl. lia.
  - destruct (nth_error (awaiting p) k) as [msg|]; [|discriminate].
    inversion Hstep; subst; clear Hstep.
    set (p1 := with_awaiting (remove_nth k (awaiting p)) p).
    destruct (handleMessage_resume msg o p1) as [r q] eqn:E.
    pose proof (resume_frame msg o p1) as F. rewrite E in F. simpl in F.
    destruct F as (_ & _ & _ & Hf & _ & Hp & _).
    pose proof (resume_writes msg o p1) as W. rewrite E in W. simpl in W.
    destruct W as (Hlen & _).
    pose proof (unhandled_frame r q)
      as (_ & _ & _ & Hf' & _ & Hp' & Ho' & _).
    rewrite Hf', Hp', Ho', Hf, Hp. unfold settles_in, lines_in. simpl. lia.
Qed.

Lemma settles_in_cons e events :
  settles_in (e :: events) = (settles_in [e] + settles_in events)%nat.
Proof. unfold settles_in. simpl. destruct (is_settle e); reflexivity. Qed.

Lemma lines_in_cons e events :
  lines_in (e :: events) = (lines_in [e] + lines_in events)%nat.
Proof. unfold lines_in. simpl. destruct (is_line e); reflexivity. Qed.

Lemma run_counts events : forall p q,
  run p events = Some q ->
  Z.of_nat (length (fetched q)) - pending q
    = Z.of_nat (length (fetched p)) - pending p + Z.of_nat (settles_in events)
  /\ (length (fetched q) <= length (fetched p) + lines_in events)%nat
  /\ Z.of_nat (length (stdout q)) + pending q
       <= Z.of_nat (length (stdout p)) + pending p
          + Z.of_nat (lines_in events).
Proof.
  induction events as [|e rest IH]; intros p q Hrun; simpl in Hrun.
  - inversion Hrun; subst. unfold settles_in, lines_in. simpl. lia.
  - destruct (step p e) as [p'|] eqn:E; [|discriminate].
    destruct (step_counts _ _ _ E) as (Hc & Hl & Hw).
    destruct (IH _ _ Hrun) as (Hc' & Hl' & Hw').
    rewrite settles_in_cons, lines_in_cons. lia.
Qed.

(** X8.  Over every run, the calls of [fetch] are the settled exchanges
    plus the open ones, [pending] of them: an exchange is made once, for
    one input line, and never made again.  And the writes to stdout and
    the open exchanges together are at most the input lines: a line gets
    one write at most, and none while its exchange is open; nothing is
    written at the close of stdin. *)
Theorem exchanges_counted argv2 argv3 events p :
  run (main argv2 argv3) events = Some p ->
  Z.of_nat (length (fetched p)) = pending p + Z.of_nat (settles_in events)
  /\ (length (fetched p) <= lines_in events)%nat
  /\ Z.of_nat (length (stdout p)) + pending p
       <= Z.of_nat (lines_in events).
Proof.
  intro Hrun. destruct (run_counts _ _ _ Hrun) as (Hc & Hl & Hw).
  assert (H0 : fetched (main argv2 argv3) = []
               /\ pending (main argv2 argv3) = 0
               /\ stdout (main argv2 argv3) = []).
  { unfold main. destruct argv2 as [u|]; simpl;
      [destruct (u =? "")%string|]; simpl; auto. }
  destruct H0 as (Hf0 & Hp0 & Ho0). rewrite Hf0, Hp0 in Hc.
  rewrite Hf0 in Hl. rewrite Ho0, Hp0 in Hw. simpl in *. lia.
Qed.

(** X9.  Over every run, each write to stdout and each write to stderr
    ends with a newline: a write is a whole line, or several when the
    text has newlines of its own, never a line left open. *)
Theorem writes_end_their_line argv2 argv3 events p :
  run (main argv2 argv3) events = Some p ->
  Forall terminated (stdout p) /\ Forall terminated (stderr p).
Proof.
  apply (run_invariant
           (fun q => Forall terminated (stdout q)
                     /\ Forall terminated (stderr q))).
  - intros q e q' (Ho & He) Hstep.
    destruct (step_writes _ _ _ Hstep) as (Ho' & He'). auto.
  - unfold main. destruct argv2 as [u|]; simpl;
      [destruct (u =? "")%string|]; simpl; split; close_terminated.
Qed.

End Runs.

Section Requests.
Context {platform : Platform}.

Lemma posts_later u e events r : posts u events r -> posts u (e :: events) r.
Proof.
  intros (Hu & Hm & raw & msg & Hin & H). repeat split; auto.
  exists raw, msg. split; [right|]; auto.
Qed.

Lemma step_requests p e p' :
  step p e = Some p' ->
  url p' = url p
  /\ exists new,
      fetched p' = app (fetched p) new /\ Forall (posts (url p) [e]) new.
Proof.
  intro Hstep. pose proof (step_running _ _ _ Hstep) as Hrun.
  unfold step in Hstep. rewrite Hrun in Hstep.
  destruct e as [raw| |k o].
  - inversion Hstep; subst; clear Hstep.
    destruct (handleMessage_start raw p) as [r q] eqn:E.
    pose proof (start_frame raw p) as F. rewrite E in F. simpl in F.
    destruct F as (Hu & _ & _ & Hcase).
    pose proof (unhandled_frame r q) as (Hu' & _ & _ & Hf' & _).
    rewrite Hu', Hf', Hu. split; [reflexivity|].
    destruct Hcase
      as [(_ & _ & _ & _ & _ & Hf)
         | [(msg & Hparse & Hm & _ & _ & _ & _ & _ & _ & _ & Hf)
           | (msg & _ & _ & _ & _ & _ & _ & _ & _ & Hf)]];
      rewrite Hf.
    + exists []. rewrite app_nil_r. auto.
    + eexists; split; [reflexivity|]. constructor; [|constructor].
      repeat split. exists raw, msg. simpl. auto.
    + exists []. rewrite app_nil_r. auto.
  - inversion Hstep; subst; clear Hstep.
    pose proof (close_frame p) as (Hu & _ & _ & Hf & _).
    rewrite Hu, Hf. split; [reflexivity|]. exists []. rewrite app_nil_r. auto.
  - destruct (nth_error (awaiting p) k) as [msg|]; [|discriminate].
    inversion Hstep; subst; clear Hstep.
    set (p1 := with_awaiting (remove_nth k (awaiting p)) p).
    destruct (handleMessage_resume msg o p1) as [r q] eqn:E.
    pose proof (resume_frame msg o p1) as F. rewrite E in F. simpl in F.
    destruct F as (Hu & _ & _ & Hf & _).
    pose proof (unhandled_frame r q) as (Hu' & _ & _ & Hf' & _).
    rewrite Hu', Hf', Hu, Hf. simpl. split; [reflexivity|].
    exists []. rewrite app_nil_r. auto.
Qed.

Lemma run_requests events : forall p q,
  run p events = Some q ->
  url q = url p
  /\ exists new,
      fetched q = app (fetched p) new /\ Forall (posts (url p) events) new.
Proof.
  induction events as [|e rest IH]; intros p q Hrun; simpl in Hrun.
  - inversion Hrun; subst. split; [reflexivity|].
    exists []. rewrite app_nil_r. auto.
  - destruct (step p e) as [p'|] eqn:E; [|discriminate].
    destruct (step_requests _ _ _ E) as (Hu & new1 & Hf1 & Hn1).
    destruct (IH _ _ Hrun) as (Hu' & new2 & Hf2 & Hn2).
    split; [congruence|]. exists (new1 ++ new2)%list. split.
    + rewrite Hf2, Hf1. now rewrite app_assoc.
    + apply Forall_app. split.
      * eapply Forall_impl; [|exact Hn1].
        intros r (H1 & H2 & raw & msg & [Hin|[]] & H3).
        repeat split; auto. exists raw, msg. split; [left|]; auto.
      * rewrite Hu in Hn2. eapply Forall_impl; [|exact Hn2].
        intros r. apply posts_later.
Qed.

(** X11.  Every call of [fetch] a started bridge makes is a POST to the
    url it was started with, and its body is the serialisation of the
    parsed message of one of the input lines, a message with a truthy
    [method]: the line is posted as re-serialised, not as it was read,
    and nothing is posted that did not come in. *)
Theorem every_exchange_posts_a_line u argv3 events p :
  u <> "" ->
  run (main (Some u) argv3) events = Some p ->
  Forall (posts u events) (fetched p).
Proof.
  intros Hu Hrun. apply String.eqb_neq in Hu.
  destruct (run_requests _ _ _ Hrun) as (_ & new & Hf & Hn).
  assert (H0 : url (main (Some u) argv3) = u
               /\ fetched (main (Some u) argv3) = []).
  { unfold main. rewrite Hu. simpl. auto. }
  destruct H0 as (Hu0 & Hf0). rewrite Hu0 in Hn. rewrite Hf0 in Hf.
  simpl in Hf. now rewrite Hf.
Qed.
End Requests.

Section Repair.
Context {platform : Platform}.

Lemma member_assign_other {A} (key other : string) (v : A) ms :
  other <> key -> member other (assign key v ms) = member other ms.
Proof.
  intro Hne. apply String.eqb_neq in Hne.
  induction ms as [|[k w] rest IH]; simpl.
  - rewrite String.eqb_sym. now rewrite Hne.
  - destruct (k =? key)%string eqn:E; simpl.
    + apply String.eqb_eq in E. subst k.
      rewrite String.eqb_sym. now rewrite Hne.
    + now rewrite IH.
Qed.

Lemma assign_absent {A} (key : string) (v : A) ms :
  member key ms = None -> assign key v ms = app ms [(key, v)].
Proof.
  induction ms as [|[k w] rest IH]; simpl; [reflexivity|].
  destruct (k =? key)%string; [discriminate|]. intro H. now rewrite IH.
Qed.

Lemma assign_keys {A} (key : string) (v : A) ms :
  member key ms <> None -> map fst (assign key v ms) = map fst ms.
Proof.
  induction ms as [|[k w] rest IH]; simpl; [congruence|].
  destruct (k =? key)%string eqn:E; simpl; [reflexivity|].
  intro H. now rewrite IH.
Qed.

(** X7.  The repair of line 68 changes the id and nothing else: the
    repaired object has the request's id, every other member of the
    reply with its value, and the members in the order of the reply; an
    id that was null is replaced where it stood, an id that was absent
    is added last. *)
Theorem repair_changes_only_the_id (reply : list (string * JSON number)) id :
  exists repaired,
    assign_id (JObject reply) id = JObject repaired
    /\ member "id" repaired = Some id
    /\ (forall key, key <> "id" -> member key repaired = member key reply)
    /\ (member "id" reply = None -> repaired = app reply [("id", id)])
    /\ (member "id" reply <> None -> map fst repaired = map fst reply).
Proof.
  exists (assign "id" id reply). split; [reflexivity|].
  split; [apply member_assign_same|].
  split; [intros key Hk; now apply member_assign_other|].
  split; [apply assign_absent|apply assign_keys].
Qed.
End Repair.

(** * Properties of [test-handshake.js] *)

Section Reading.
Context {platform : Platform} {comparison : Comparison platform}.
Import Handshake.

Lemma append_assoc (a b c : string) : (a ++ b) ++ c = a ++ b ++ c.
Proof. induction a as [|x a IH]; simpl; congruence. Qed.

Lemma append_empty (a : string) : a ++ "" = a.
Proof. induction a as [|x a IH]; simpl; congruence. Qed.

Lemma split_lines_nonempty s : split_lines s <> [].
Proof.
  destruct s as [|c s]; simpl; [discriminate|].
  destruct (Ascii.eqb c "010"); [discriminate|].
  destruct (split_lines s); discriminate.
Qed.

Lemma last_app_nonempty {A} (l l' : list A) d :
  l' <> [] -> last (l ++ l') d = last l' d.
Proof.
  intro H. induction l as [|x l IH]; simpl; [reflexivity|].
  destruct (l ++ l')%list eqn:E; [|exact IH].
  apply app_eq_nil in E as [_ E]. contradiction.
Qed.

(** Splitting a text in two pieces: the last line of the first piece is
    carried over to the second. *)
Lemma split_lines_app x y :
  split_lines (x ++ y) =
    (removelast (split_lines x)
       ++ split_lines (last (split_lines x) "" ++ y))%list.
Proof.
  induction x as [|c x IH]; simpl; [reflexivity|].
  destruct (Ascii.eqb c "010") eqn:Ec.
  - rewrite IH. pose proof (split_lines_nonempty x) as Hne.
    destruct (split_lines x) as [|f o]; [contradiction|]. reflexivity.
  - rewrite IH. pose proof (split_lines_nonempty x) as Hne.
    destruct (split_lines x) as [|f o]; [contradiction|].
    destruct o as [|o1 o2].
    + simpl. rewrite Ec. reflexivity.
    + reflexivity.
Qed.

Lemma on_data_app h a b : on_data (on_data h a) b = on_data h (a ++ b).
Proof.
  unfold on_data. simpl.
  rewrite <- append_assoc, (split_lines_app (stdoutBuf h ++ a) b).
  set (L1 := split_lines (stdoutBuf h ++ a)).
  set (L2 := split_lines (last L1 "" ++ b)).
  assert (H2 : L2 <> []) by apply split_lines_nonempty.
  rewrite last_app_nonempty by assumption.
  rewrite removelast_app by assumption.
  now rewrite flat_map_app, app_assoc.
Qed.

Lemma split_one_line s : one_line s = true -> split_lines s = [s].
Proof.
  induction s as [|c s IH]; simpl; [reflexivity|].
  destruct (Ascii.eqb c "010"); simpl; [discriminate|].
  intro H. now rewrite IH.
Qed.

Lemma split_lines_one_line s : Forall (fun l => one_line l = true) (split_lines s).
Proof.
  induction s as [|c s IH]; simpl; [repeat constructor|].
  destruct (Ascii.eqb c "010") eqn:Ec; [constructor; auto|].
  destruct (split_lines s) as [|f o]; [repeat constructor; simpl; now rewrite Ec|].
  inversion IH; subst. constructor; [|assumption]. simpl. now rewrite Ec.
Qed.

Lemma last_one_line s : one_line (last (split_lines s) "") = true.
Proof.
  pose proof (split_lines_one_line s) as H.
  pose proof (split_lines_nonempty s) as Hne.
  induction (split_lines s) as [|f o IH]; [contradiction|].
  inversion H; subst. destruct o as [|o1 o2]; [assumption|].
  apply IH; [assumption|discriminate].
Qed.

Lemma on_data_nothing h :
  one_line (stdoutBuf h) = true -> on_data h "" = h.
Proof.
  intro H. unfold on_data. rewrite append_empty, (split_one_line _ H).
  simpl. rewrite app_nil_r. destruct h; reflexivity.
Qed.

Lemma feed_stream chunks : forall h,
  one_line (stdoutBuf h) = true ->
  feed h chunks = on_data h (stream chunks).
Proof.
  induction chunks as [|c rest IH]; intros h H; simpl.
  - symmetry. now apply on_data_nothing.
  - unfold feed in *. simpl. rewrite IH.
    + apply on_data_app.
    + unfold on_data. simpl. apply last_one_line.
Qed.

(** X12.  How the child's stdout is cut into chunks does not matter to
    the harness: two sequences of chunks that make the same text leave
    it with the same responses and the same pending partial line. *)
Theorem chunking_is_immaterial chunks1 chunks2 :
  stream chunks1 = stream chunks2 ->
  feed started chunks1 = feed started chunks2.
Proof.
  intro H. rewrite !feed_stream by reflexivity. now rewrite H.
Qed.

Lemma split_line_then text rest :
  one_line text = true ->
  split_lines (text ++ String "010"%char rest) = text :: split_lines rest.
Proof.
  induction text as [|c text IH]; simpl; [reflexivity|].
  destruct (Ascii.eqb c "010"); simpl; [discriminate|].
  intro H. now rewrite IH.
Qed.

Lemma split_whole_lines texts :
  Forall (fun t => one_line t = true) texts ->
  split_lines (stream (map (fun t => t ++ LF) texts)) = (texts ++ [""])%list.
Proof.
  induction 1 as [|t texts Ht _ IH]; simpl; [reflexivity|].
  rewrite append_assoc. simpl. rewrite (split_line_then _ _ Ht).
  now rewrite IH.
Qed.

(** X13.  When the child writes whole lines, each a text without a
    newline followed by one, the harness ends with no partial line and
    with one response for each text that is not blank, in the order of
    the writes, whatever the chunks the text arrives in; the response
    has the text as [raw] and its JSON value, or null when it does not
    parse, as [parsed]. *)
Theorem whole_lines_become_responses texts chunks :
  Forall (fun t => one_line t = true) texts ->
  stream chunks = stream (map (fun t => t ++ LF) texts) ->
  feed started chunks =
    {| stdoutBuf := ""; responses := flat_map receive texts |}.
Proof.
  intros Ht Hs. rewrite feed_stream by reflexivity. rewrite Hs.
  unfold on_data. simpl. rewrite (split_whole_lines _ Ht).
  rewrite last_last, removelast_last. reflexivity.
Qed.
End Reading.

Section Checking.
Context {platform : Platform} {comparison : Comparison platform}.
Import Handshake.

Lemma equals_version v :
  strict_equals v (value (JString "2.0")) = true -> v = value (JString "2.0").
Proof.
  destruct v as [|[| | |s| |]]; simpl; try discriminate.
  intro H. apply String.eqb_eq in H. now subst.
Qed.

#[local] Arguments strict_equals : simpl never.
#[local] Arguments nullish : simpl never.
#[local] Arguments ToBoolean : simpl never.
#[local] Arguments Get : simpl never.
#[local] Arguments has_property : simpl never.

(** A response that makes no failure in the first loop answers its step. *)
Lemma check_passed step resp :
  check step resp = Returned false -> exists r, resp = Some r /\ answers step r.
Proof.
  destruct resp as [r|]; [|discriminate]. unfold check, answers.
  intro H. exists r. split; [reflexivity|].
  destruct (ToBoolean (value (parsed r))) eqn:Ht; simpl in H; [|discriminate].
  destruct (Get (parsed r) "id") as [pid|e] eqn:Hg; simpl in H;
    [|discriminate].
  destruct (nullish pid) eqn:Hn; simpl in H; [discriminate|].
  destruct (Get (send step) "id") as [sent|e] eqn:Hsent; simpl in H;
    [|discriminate].
  destruct (strict_equals pid sent) eqn:Hs; simpl in H; [|discriminate].
  destruct (Get (parsed r) "jsonrpc") as [version|e] eqn:Hv; simpl in H;
    [|discriminate].
  destruct (strict_equals version (value (JString "2.0"))) eqn:He;
    simpl in H; [|discriminate].
  apply equals_version in He. subst version.
  destruct (parsed r) as [|b|n|s|items|members];
    try (cbv in Hg; inversion Hg; subst; cbv in Hn; discriminate).
  exists members. cbv [Get] in Hg, Hv.
  destruct (member "id" members) as [id|];
    [|inversion Hg; subst; cbv in Hn; discriminate].
  inversion Hg; subst. exists id.
  split; [reflexivity|]. split; [reflexivity|].
  split; [intros ->; cbv in Hn; discriminate|].
  split; [exists sent; auto|].
  destruct (member "jsonrpc" members) as [v|]; [|discriminate].
  inversion Hv; subst. split; [reflexivity|].
  cbv [has_property] in H.
  destruct (member "result" members); simpl in H; [left; discriminate|].
  destruct (member "error" members); simpl in H;
    [right; discriminate|discriminate].
Qed.

End Checking.

Section Judging.
Context {platform : Platform} {comparison : Comparison platform}.
Import Handshake.

Lemma and_then_returned {A B} (r : Result A) (f : A -> Result B) b :
  and_then r f = Returned b -> exists a, r = Returned a /\ f a = Returned b.
Proof. destruct r as [a|e]; simpl; [eauto|discriminate]. Qed.

Lemma check_steps_passed todo received : forall k,
  check_steps todo received k = Returned O ->
  forall i step,
    nth_error (expecting todo) i = Some step ->
    exists r, nth_error received (k + i) = Some r /\ answers step r.
Proof.
  induction todo as [|s rest IH]; intros k H i step Hi; simpl in *.
  - destruct i; discriminate.
  - destruct (expectResponse s) eqn:Es; simpl in *.
    + apply and_then_returned in H as (failed & Hc & H).
      apply and_then_returned in H as (failures & Hr & H).
      inversion H as [Hsum]. destruct failed; [discriminate|].
      simpl in Hsum. subst failures.
      destruct i as [|i]; simpl in Hi.
      * inversion Hi; subst. apply check_passed in Hc as (r & Hn & Ha).
        exists r. now rewrite Nat.add_0_r.
      * destruct (IH _ Hr i step Hi) as (r & Hn & Ha).
        exists r. split; [|assumption]. now rewrite <- plus_n_Sm.
    + eauto.
Qed.

Lemma count_stray_none received :
  count_stray received = Returned O ->
  forall r, In r received -> stray r = Returned false.
Proof.
  induction received as [|x rest IH]; simpl; intros H r Hin; [contradiction|].
  apply and_then_returned in H as (s & Hs & H).
  apply and_then_returned in H as (n & Hn & H).
  inversion H as [Hsum]. destruct s; [discriminate|]. simpl in Hsum. subst n.
  destruct Hin as [->|Hin]; auto.
Qed.

(** X14.  When [validate] counts no failure, so that the harness exits
    with code 0, each step that expects a response was answered, in the
    order of the steps: the i-th such step by the i-th response, an
    object with an id that is not null and is strictly equal to the id
    sent, with [jsonrpc] equal to 2.0 and with a [result] or an [error].
    And no response at all is a value without an id. *)
Theorem passing_run_answers_every_step todo received failures :
  validate todo received = Returned failures ->
  exit_code failures = 0 ->
  (forall i step,
      nth_error (expecting todo) i = Some step ->
      exists r, nth_error received i = Some r /\ answers step r)
  /\ (forall r, In r received -> stray r = Returned false).
Proof.
  unfold validate, exit_code. intros H Hx.
  apply and_then_returned in H as (n1 & H1 & H).
  apply and_then_returned in H as (n2 & H2 & H).
  inversion H; subst.
  destruct (n1 + n2)%nat eqn:E; [|discriminate].
  assert (n1 = O /\ n2 = O) as (-> & ->) by lia.
  split.
  - intros i step Hi. exact (check_steps_passed _ _ _ H1 i step Hi).
  - now apply count_stray_none.
Qed.

Lemma stray_returns r : exists s, stray r = Returned s.
Proof.
  unfold stray. destruct (parsed r) as [|b|n|s|items|members]; simpl; eauto.
  - destruct b; simpl; eauto.
  - destruct (number_ToBoolean n); simpl; eauto.
  - destruct (negb _); simpl; eauto.
Qed.

Lemma count_stray_returns received : exists n, count_stray received = Returned n.
Proof.
  induction received as [|x rest (n & IH)]; simpl; [eauto|].
  destruct (stray_returns x) as (s & ->). simpl. rewrite IH. simpl. eauto.
Qed.

Lemma count_stray_some received r n :
  In r received -> stray r = Returned true ->
  count_stray received = Returned n -> (0 < n)%nat.
Proof.
  induction received as [|x rest IH] in n |- *; simpl; [contradiction|].
  intros [->|Hin] Hs H.
  - rewrite Hs in H. simpl in H.
    apply and_then_returned in H as (m & _ & H). inversion H. lia.
  - apply and_then_returned in H as (s & _ & H).
    apply and_then_returned in H as (m & Hm & H). inversion H.
    specialize (IH _ Hin Hs Hm). lia.
Qed.

Lemma validate_initialize_returns members :
  exists e, validate_initialize (JObject members) = Returned e.
Proof.
  unfold validate_initialize. simpl.
  destruct (member "result" members) as [result|]; simpl; [|eauto].
  destruct result as [|b|n|s|items|ms]; simpl; eauto;
    repeat match goal with
           | |- context [if ?c then _ else _] => destruct c; simpl; eauto
           end.
Qed.

Lemma validate_tools_list_returns members :
  exists e, validate_tools_list (JObject members) = Returned e.
Proof.
  unfold validate_tools_list. simpl.
  destruct (member "result" members) as [result|]; simpl; [|eauto].
  destruct result as [|b|n|s|items|ms]; simpl; eauto;
    repeat match goal with
           | |- context [if ?c then _ else _] => destruct c; simpl; eauto
           end.
Qed.

(** The checks of one step end without a throw, when the message of the
    step is an object and its [validate] throws on no object. *)
Lemma check_returns step resp :
  (exists sent, send step = JObject sent) ->
  (forall f, step_validate step = Some f ->
             forall members, exists e, f (JObject members) = Returned e) ->
  exists failed, check step resp = Returned failed.
Proof.
  intros (sent & Hsend) Hf. unfold check. rewrite Hsend.
  destruct resp as [r|]; [|eauto].
  destruct (parsed r) as [|b|n|s|items|members]; simpl; eauto;
    repeat match goal with
           | |- exists _, Returned _ = Returned _ => eexists; reflexivity
           | |- context [and_then (?g (JObject ?m)) _] =>
               destruct (Hf g eq_refl m) as (e & ->); simpl
           | |- context [match step_validate step with _ => _ end] =>
               destruct (step_validate step) as [f|] eqn:Ef; simpl
           | |- context [if ?c then _ else _] => destruct c; simpl
           | |- context [match member ?k ?m with _ => _ end] =>
               destruct (member k m); simpl
           end.
Qed.

Lemma check_steps_returns todo received :
  Forall (fun step =>
            (exists sent, send step = JObject sent)
            /\ (forall f, step_validate step = Some f ->
                  forall members, exists e, f (JObject members) = Returned e))
         todo ->
  forall k, exists n, check_steps todo received k = Returned n.
Proof.
  induction 1 as [|s rest (Hs & Hf) _ IH]; intro k; simpl; [eauto|].
  destruct (expectResponse s); simpl; [|apply IH].
  destruct (check_returns s (nth_error received k) Hs Hf) as (failed & ->).
  simpl. destruct (IH (S k)) as (n & ->). simpl. eauto.
Qed.

Lemma steps_well_formed :
  Forall (fun step =>
            (exists sent, send step = JObject sent)
            /\ (forall f, step_validate step = Some f ->
                  forall members, exists e, f (JObject members) = Returned e))
         steps.
Proof.
  unfold steps, request.
  repeat constructor; simpl; eauto; intros f H; inversion H; subst;
    (apply validate_initialize_returns || apply validate_tools_list_returns).
Qed.

(** X15.  On the steps of the script, [validate] never throws, whatever
    the responses; and one response that has a value but no id, or a null
    id, anywhere among them, is enough for a failure: the harness exits
    with code 1. *)
Theorem response_without_id_fails received :
  exists failures,
    validate steps received = Returned failures
    /\ forall r,
        In r received -> stray r = Returned true -> exit_code failures = 1.
Proof.
  unfold validate.
  destruct (check_steps_returns steps received steps_well_formed 0)
    as (n1 & H1).
  destruct (count_stray_returns received) as (n2 & H2).
  rewrite H1, H2. simpl. eexists; split; [reflexivity|].
  intros r Hin Hs. pose proof (count_stray_some _ _ _ Hin Hs H2).
  unfold exit_code. destruct (n1 + n2)%nat eqn:E; [lia|reflexivity].
Qed.
End Judging.

(** * The bridge under the harness *)

Section EndToEnd.
Context {platform : Platform} {comparison : Comparison platform}.
Import Handshake.

Lemma not_null_value v (id : JSON number) :
  not_null v = Some id -> v = value id /\ nullish v = false /\ id <> JNull.
Proof.
  destruct v as [|[]]; simpl; intro H; inversion H; subst;
    repeat split; discriminate.
Qed.

(** X16.  The harness sends the request of a step that has no
    [validate] of its own, the bridge posts it, and the server cannot be
    reached.  Then what the bridge writes reaches the harness, in
    whatever chunks, as exactly one response, and that response passes
    every check of the step and is no stray: the synthesized error counts
    as an answer.  The platform is asked to read back what it serialises
    for the two values at hand, on one line that is not blank, and to
    find the id equal to itself. *)
Theorem unreachable_server_passes_the_checks u argv3 asked id err :
  let reply := error_reply id ("Bridge error: " ++ message err) in
  u <> "" ->
  dispatched (send asked) ->
  classify (send asked) = Returned (Request id) ->
  step_validate asked = None ->
  strict_equals (value id) (value id) = true ->
  JSON_parse (JSON_stringify (send asked)) = Some (send asked) ->
  JSON_parse (JSON_stringify reply) = Some reply ->
  one_line (JSON_stringify reply) = true ->
  blank (JSON_stringify reply) = false ->
  exists p,
    run (main (Some u) argv3)
      [Line (JSON_stringify (send asked)); Settle 0 (FetchRejected err)]
      = Some p
    /\ forall chunks,
        stream chunks = stream (stdout p) ->
        exists r,
          feed started chunks = {| stdoutBuf := ""; responses := [r] |}
          /\ raw r = JSON_stringify reply
          /\ check asked (Some r) = Returned false
          /\ stray r = Returned false.
Proof.
  intros reply Hu (method & Hget & Ht) Hc Hv Heq Hsent Hreply Hone Hblank.
  subst reply. apply String.eqb_neq in Hu.
  assert (Hser : serialises (send asked) = true)
    by (unfold serialises; rewrite Hsent; reflexivity).
  assert (Hstart : run (main (Some u) argv3)
                     [Line (JSON_stringify (send asked));
                      Settle 0 (FetchRejected err)]
                   = Some (unhandled
                             (handleMessage_resume (send asked)
                                (FetchRejected err)
                                (with_awaiting []
                                   (snd (handleMessage_start
                                           (JSON_stringify (send asked))
                                           (main (Some u) argv3))))))).
  { unfold run, step at 1. unfold main at 1. rewrite Hu. simpl.
    cbv [handleMessage_start bind lift ret read modify fetch stringify
       try_catch try_finally throw stdout_write stderr_write maybeExit
       process_exit].
    rewrite Hsent, Hget, Ht. simpl. rewrite Hser. unfold main.
    rewrite Hu. reflexivity. }
  eexists; split; [exact Hstart|].
  set (p1 := with_awaiting [] _).
  destruct (resume_rejected (send asked) (Request id) err p1 Hc)
    as (_ & Hout).
  assert (Hp1 : stdout p1 = []).
  { unfold p1. cbv [handleMessage_start bind lift ret read modify fetch stringify
       try_catch try_finally throw stdout_write stderr_write maybeExit
       process_exit].
    rewrite Hsent, Hget, Ht. simpl. rewrite Hser. unfold main.
    rewrite Hu. reflexivity. }
  rewrite Hp1 in Hout. cbn [app] in Hout. rewrite Hout.
  intros chunks Hs. rewrite feed_stream by reflexivity. rewrite Hs.
  set (line := JSON_stringify (error_reply id _)) in *.
  assert (Hsplit : split_lines (stream [line ++ LF]) = [line; ""]).
  { apply (split_whole_lines [line]). repeat constructor. exact Hone. }
  unfold on_data. cbn [stdoutBuf responses started].
  change (append "" ?x) with x. rewrite Hsplit.
  cbn [last removelast flat_map app].
  unfold receive. rewrite Hblank, Hreply.
  eexists; split; [reflexivity|]. split; [reflexivity|].
  apply classify_request in Hc as (v & Hid & Hnn).
  apply not_null_value in Hnn as (-> & Hn & Hne).
  destruct id; simpl in Heq; try discriminate;
    try (exfalso; apply Hne; reflexivity);
    (split; [unfold check; simpl; rewrite Hid; simpl; rewrite Heq; simpl;
             rewrite Hv; reflexivity
            |reflexivity]).
Qed.
End EndToEnd.

Section Repaired.
Context {platform : Platform} {comparison : Comparison platform}.
Import Handshake.

(** The repair, at the level of [handleMessage]. *)
Lemma resume_repaired msg id status body reply p :
  classify msg = Returned (Request id) ->
  status <> 204 ->
  body <> "" ->
  JSON_parse body = Some (JObject reply) ->
  member "id" reply = None \/ member "id" reply = Some JNull ->
  serialises (JObject (assign "id" id reply)) = true ->
  stdout (unhandled
            (handleMessage_resume msg (Response status (Body body)) p))
  = app (stdout p) [JSON_stringify (JObject (assign "id" id reply)) ++ LF].
Proof.
  intros Hc Hs Hb Hparse Hid Hfit.
  apply Z.eqb_neq in Hs. apply String.eqb_neq in Hb.
  apply classify_request in Hc as (v & Hget & Hnn).
  cbv [handleMessage_resume relay maybeExit try_finally try_catch bind lift
       ret throw modify read stdout_write stderr_write process_exit
       stringify].
  rewrite Hs, Hb. simpl. rewrite Hparse. simpl.
  destruct Hid as [Hid|Hid]; rewrite Hid; simpl; rewrite Hget, Hnn; simpl;
    rewrite Hfit; simpl;
    destruct (stdinClosed p && (pending p - 1 =? 0)); reflexivity.
Qed.

(** X17.  The harness sends the request of a step that has no
    [validate] of its own, and the server answers with an object that
    has [jsonrpc] 2.0 and a [result] or an [error] but no id, or a null
    one.  Then what the bridge writes reaches the harness as exactly one
    response, and that response passes every check of the step and is no
    stray: the repair makes the reply an answer.  The platform is asked
    to read back what it serialises for the two values at hand, on one
    line that is not blank, and to find the id equal to itself. *)
Theorem repaired_reply_passes_the_checks
    u argv3 asked id status body reply :
  let repaired := JObject (assign "id" id reply) in
  u <> "" ->
  dispatched (send asked) ->
  classify (send asked) = Returned (Request id) ->
  step_validate asked = None ->
  strict_equals (value id) (value id) = true ->
  JSON_parse (JSON_stringify (send asked)) = Some (send asked) ->
  status <> 204 ->
  body <> "" ->
  JSON_parse body = Some (JObject reply) ->
  member "id" reply = None \/ member "id" reply = Some JNull ->
  member "jsonrpc" reply = Some (JString "2.0") ->
  member "result" reply <> None \/ member "error" reply <> None ->
  JSON_parse (JSON_stringify repaired) = Some repaired ->
  one_line (JSON_stringify repaired) = true ->
  blank (JSON_stringify repaired) = false ->
  exists p,
    run (main (Some u) argv3)
      [Line (JSON_stringify (send asked));
       Settle 0 (Response status (Body body))]
      = Some p
    /\ forall chunks,
        stream chunks = stream (stdout p) ->
        exists r,
          feed started chunks = {| stdoutBuf := ""; responses := [r] |}
          /\ raw r = JSON_stringify repaired
          /\ check asked (Some r) = Returned false
          /\ stray r = Returned false.
Proof.
  intros repaired Hu (method & Hget & Ht) Hc Hv Heq Hsent Hs Hb Hparse
    Hnoid Hversion Hres Hback Hone Hblank.
  apply String.eqb_neq in Hu.
  assert (Hser : serialises (send asked) = true)
    by (unfold serialises; rewrite Hsent; reflexivity).
  assert (Hfit : serialises repaired = true)
    by (unfold serialises; rewrite Hback; reflexivity).
  assert (Hstart : run (main (Some u) argv3)
                     [Line (JSON_stringify (send asked));
                      Settle 0 (Response status (Body body))]
                   = Some (unhandled
                             (handleMessage_resume (send asked)
                                (Response status (Body body))
                                (with_awaiting []
                                   (snd (handleMessage_start
                                           (JSON_stringify (send asked))
                                           (main (Some u) argv3))))))).
  { unfold run, step at 1. unfold main at 1. rewrite Hu. simpl.
    cbv [handleMessage_start bind lift ret read modify fetch stringify
       try_catch try_finally throw stdout_write stderr_write maybeExit
       process_exit].
    rewrite Hsent, Hget, Ht. simpl. rewrite Hser. unfold main.
    rewrite Hu. reflexivity. }
  eexists; split; [exact Hstart|].
  set (p1 := with_awaiting [] _).
  rewrite (resume_repaired _ _ _ _ _ p1 Hc Hs Hb Hparse Hnoid Hfit).
  assert (Hp1 : stdout p1 = []).
  { unfold p1. cbv [handleMessage_start bind lift ret read modify fetch stringify
       try_catch try_finally throw stdout_write stderr_write maybeExit
       process_exit].
    rewrite Hsent, Hget, Ht. simpl. rewrite Hser. unfold main.
    rewrite Hu. reflexivity. }
  rewrite Hp1. cbn [app].
  intros chunks Hstream. rewrite feed_stream by reflexivity. rewrite Hstream.
  fold repaired. set (line := JSON_stringify repaired) in *.
  assert (Hsplit : split_lines (stream [line ++ LF]) = [line; ""]).
  { apply (split_whole_lines [line]). repeat constructor. exact Hone. }
  unfold on_data. cbn [stdoutBuf responses started].
  change (append "" ?x) with x. rewrite Hsplit.
  cbn [last removelast flat_map app].
  unfold receive. rewrite Hblank, Hback.
  eexists; split; [reflexivity|]. split; [reflexivity|].
  apply classify_request in Hc as (v & Hid & Hnn).
  apply not_null_value in Hnn as (-> & Hn & Hne).
  assert (Hmid : member "id" (assign "id" id reply) = Some id)
    by apply member_assign_same.
  assert (Hmv : member "jsonrpc" (assign "id" id reply)
                = Some (JString "2.0")).
  { rewrite member_assign_other by discriminate. exact Hversion. }
  assert (Hmr : member "result" (assign "id" id reply)
                = member "result" reply)
    by (apply member_assign_other; discriminate).
  assert (Hme : member "error" (assign "id" id reply)
                = member "error" reply)
    by (apply member_assign_other; discriminate).
  unfold repaired.
  split.
  - unfold check. cbn [parsed Get has_property]. rewrite Hmid, Hmv, Hmr, Hme.
    destruct id; simpl in Heq; try discriminate;
      try (exfalso; apply Hne; reflexivity);
      simpl; rewrite Hid; simpl; rewrite Heq; simpl;
      (destruct (member "result" reply); simpl;
       [rewrite Hv; reflexivity|]);
      (destruct (member "error" reply); simpl;
       [rewrite Hv; reflexivity|]);
      destruct Hres as [Hres|Hres]; contradiction.
  - unfold stray. cbn [parsed Get]. rewrite Hmid.
    destruct id; try (exfalso; apply Hne; reflexivity); reflexivity.
Qed.
End Repaired.

(** * The further properties at sample inputs *)

Lemma after_is_the_run password events :
  run (main (Some endpoint) password) events <> None ->
  run (main (Some endpoint) password) events = Some (after password events).
Proof. unfold after. destruct (run _ _); [reflexivity|congruence]. Qed.

Ltac run_goes_on n :=
  apply after_is_the_run;
  let E := fresh "E" in
  let H := fresh "H" in
  intro E;
  match type of E with
  | ?r = None =>
      assert (H : option_map pending r = Some n) by reflexivity;
      rewrite E in H; discriminate H
  end.

Lemma notification_outcome_witness :
  classify initialized_msg = Returned Notification
  /\ exists p',
      step (after None [Line initialized])
        (Settle 0 (Response 200 (Body reply_other_id))) = Some p'
      /\ stdout p' = [reply_other_id ++ LF]
      /\ stderr p' = ["[bridge] Connected to " ++ endpoint ++ LF].
Proof.
  split; [reflexivity|].
  destruct (@notification_outcome reference (after None [Line initialized])
              0 initialized_msg (Response 200 (Body reply_other_id)))
    as (p' & Hstep & Hout & Herr); try reflexivity.
  exists p'. split; [exact Hstep|]. rewrite Hout, Herr. split; reflexivity.
Defined.

Lemma null_reply_reported_witness :
  JSON_parse "null" = Some JNull
  /\ exists p',
      step (after None [Line ping]) (Settle 0 (Response 200 (Body "null")))
        = Some p'
      /\ stderr p' = ["[bridge] Connected to " ++ endpoint ++ LF;
                      "[bridge] Non-JSON response: null" ++ LF]
      /\ stdout p' =
           [Reference.dq ("{'jsonrpc':'2.0','id':5,'error':"
                          ++ "{'code':-32603,"
                          ++ "'message':'Server returned non-JSON response'}}")
            ++ LF].
Proof.
  split; [reflexivity|].
  apply (@null_reply_reported reference (after None [Line ping]) 0 ping_msg
           (@Request reference (JNumber 5)) 200 "null");
    try reflexivity; discriminate.
Defined.

Lemma body_read_failure_reply_witness :
  classify ping_msg = Returned (Request (JNumber 5))
  /\ exists p',
      step (after None [Line ping])
        (Settle 0 (Response 502 (TextRejected refused))) = Some p'
      /\ stderr p' = ["[bridge] Connected to " ++ endpoint ++ LF;
                      "[bridge] Request failed: fetch failed" ++ LF]
      /\ stdout p' =
           [Reference.dq
              ("{'jsonrpc':'2.0','id':5,'error':"
               ++ "{'code':-32603,'message':'Bridge error: fetch failed'}}")
            ++ LF].
Proof.
  split; [reflexivity|].
  apply (@body_read_failure_reply reference (after None [Line ping]) 0
           ping_msg (@Request reference (JNumber 5)) 502 refused);
    try reflexivity; discriminate.
Defined.

Lemma no_content_silent_witness :
  no_content (Response 204 (Body "")) = true
  /\ exists p',
      step (after None [Line ping]) (Settle 0 (Response 204 (Body "")))
        = Some p'
      /\ stdout p' = []
      /\ stderr p' = ["[bridge] Connected to " ++ endpoint ++ LF]
      /\ pending p' = 0
      /\ awaiting p' = [].
Proof.
  split; [reflexivity|].
  apply (@no_content_silent reference (after None [Line ping]) 0 ping_msg
           (Response 204 (Body ""))); reflexivity.
Defined.

Lemma exchanges_counted_witness :
  let events :=
    [Line ping; Line "oops"; Line initialized;
     Settle 0 (Response 200 (Body ""))] in
  run (main (Some endpoint) None) events = Some (after None events)
  /\ Z.of_nat (length (fetched (after None events)))
     = pending (after None events) + Z.of_nat (settles_in events)
  /\ (length (fetched (after None events)) <= lines_in events)%nat
  /\ Z.of_nat (length (stdout (after None events)))
     + pending (after None events) <= Z.of_nat (lines_in events).
Proof.
  intro events.
  assert (Hrun : run (main (Some endpoint) None) events
                 = Some (after None events)) by run_goes_on 1.
  split; [exact Hrun|].
  exact (exchanges_counted (Some endpoint) None events (after None events)
           Hrun).
Defined.

Lemma writes_end_their_line_witness :
  let events := [Line ping; Settle 0 (FetchRejected refused)] in
  run (main (Some endpoint) None) events = Some (after None events)
  /\ Forall terminated (stdout (after None events))
  /\ Forall terminated (stderr (after None events)).
Proof.
  intro events.
  assert (Hrun : run (main (Some endpoint) None) events
                 = Some (after None events)) by run_goes_on 0.
  split; [exact Hrun|].
  exact (writes_end_their_line (Some endpoint) None events
           (after None events) Hrun).
Defined.

Lemma every_exchange_posts_a_line_witness :
  endpoint <> ""
  /\ run (main (Some endpoint) None) [Line ping]
     = Some (after None [Line ping])
  /\ Forall (posts endpoint [Line ping]) (fetched (after None [Line ping])).
Proof.
  assert (Hrun : run (main (Some endpoint) None) [Line ping]
                 = Some (after None [Line ping])) by run_goes_on 1.
  split; [discriminate|]. split; [exact Hrun|].
  apply (every_exchange_posts_a_line endpoint None [Line ping]);
    [discriminate|exact Hrun].
Defined.

Lemma repair_changes_only_the_id_witness :
  exists repaired,
    assign_id (JObject reply_no_id_members) (JNumber 0 : JSON Z)
      = JObject repaired
    /\ member "id" repaired = Some (JNumber 0)
    /\ member "result" repaired = Some (JObject [])
    /\ repaired = app reply_no_id_members [("id", JNumber 0)].
Proof.
  destruct (@repair_changes_only_the_id reference reply_no_id_members
              (JNumber 0))
    as (repaired & Heq & Hid & Hother & Habsent & _).
  exists repaired. split; [exact Heq|]. split; [exact Hid|]. split.
  - rewrite Hother by discriminate. reflexivity.
  - apply Habsent. reflexivity.
Defined.

Lemma chunking_is_immaterial_witness :
  Handshake.stream ["{}"; LF ++ "x"] = Handshake.stream ["{}" ++ LF; "x"]
  /\ Handshake.feed Handshake.started ["{}"; LF ++ "x"]
     = Handshake.feed Handshake.started ["{}" ++ LF; "x"].
Proof.
  split; [reflexivity|].
  apply (@chunking_is_immaterial reference).
  reflexivity.
Defined.

Lemma whole_lines_become_responses_witness :
  Handshake.feed Handshake.started ["{}" ++ LF ++ " "; LF ++ "x"; LF]
  = {| Handshake.stdoutBuf := "";
       Handshake.responses :=
         [ {| Handshake.raw := "{}"; Handshake.parsed := JObject [] |};
           {| Handshake.raw := "x"; Handshake.parsed := JNull |} ] |}.
Proof.
  apply (@whole_lines_become_responses reference ["{}"; " "; "x"]).
  - repeat constructor.
  - reflexivity.
Defined.

Lemma passing_run_answers_every_step_witness :
  Handshake.validate [HarnessSample.ping_step] [HarnessSample.pong]
    = Returned O
  /\ exists r,
      nth_error [HarnessSample.pong] 0 = Some r
      /\ Handshake.answers HarnessSample.ping_step r.
Proof.
  split; [reflexivity|].
  apply (proj1 (@passing_run_answers_every_step reference
                  reference_comparison [HarnessSample.ping_step]
                  [HarnessSample.pong] O eq_refl eq_refl)
           O HarnessSample.ping_step).
  reflexivity.
Defined.

Lemma response_without_id_fails_witness :
  exists failures,
    Handshake.validate Handshake.steps
      [HarnessSample.pong; HarnessSample.no_id] = Returned failures
    /\ Handshake.exit_code failures = 1.
Proof.
  destruct (@response_without_id_fails reference reference_comparison
              [HarnessSample.pong; HarnessSample.no_id])
    as (failures & Hv & Hfail).
  exists failures. split; [exact Hv|].
  apply (Hfail HarnessSample.no_id); [right; left|]; reflexivity.
Defined.

Lemma unreachable_server_passes_the_checks_witness :
  exists p,
    run (main (Some endpoint) None)
      [Line ping; Settle 0 (FetchRejected refused)] = Some p
    /\ forall chunks,
        Handshake.stream chunks = Handshake.stream (stdout p) ->
        exists r,
          Handshake.feed Handshake.started chunks
            = {| Handshake.stdoutBuf := ""; Handshake.responses := [r] |}
          /\ Handshake.raw r
             = Reference.dq
                 ("{'jsonrpc':'2.0','id':5,'error':"
                  ++ "{'code':-32603,'message':'Bridge error: fetch failed'}}")
          /\ Handshake.check HarnessSample.ping_step (Some r) = Returned false
          /\ Handshake.stray r = Returned false.
Proof.
  apply (@unreachable_server_passes_the_checks reference reference_comparison
           endpoint None HarnessSample.ping_step (JNumber 5) refused);
    try reflexivity; try discriminate.
  exists (value (JString "ping")). split; reflexivity.
Defined.

Lemma repaired_reply_passes_the_checks_witness :
  exists p,
    run (main (Some endpoint) None)
      [Line ping; Settle 0 (Response 200 (Body reply_no_id))] = Some p
    /\ forall chunks,
        Handshake.stream chunks = Handshake.stream (stdout p) ->
        exists r,
          Handshake.feed Handshake.started chunks
            = {| Handshake.stdoutBuf := ""; Handshake.responses := [r] |}
          /\ Handshake.raw r
             = Reference.dq "{'jsonrpc':'2.0','result':{},'id':5}"
          /\ Handshake.check HarnessSample.ping_step (Some r) = Returned false
          /\ Handshake.stray r = Returned false.
Proof.
  apply (@repaired_reply_passes_the_checks reference reference_comparison
           endpoint None HarnessSample.ping_step (JNumber 5) 200 reply_no_id
           reply_no_id_members);
    try reflexivity; try discriminate.
  - exists (value (JString "ping")). split; reflexivity.
  - left; reflexivity.
  - left; discriminate.
Defined.

Lemma discarded_silently_witness :
  exitCode (main (Some endpoint) None) = None
  /\ JSON_parse ping_empty_method = Some ping_empty_method_msg
  /\ step (main (Some endpoint) None) (Line ping_empty_method)
     = Some (main (Some endpoint) None).
Proof.
  split; [reflexivity|]. split; [reflexivity|].
  apply (@discarded_silently reference); [reflexivity|].
  right. exists ping_empty_method_msg, (value (JString "")).
  repeat split.
Defined.

Lemma line_dispatched_witness :
  JSON_parse ping = Some ping_msg
  /\ exists p',
      step (main (Some endpoint) (Some "secret")) (Line ping) = Some p'
      /\ exitCode p' = None
      /\ pending p' = 1
      /\ awaiting p' = [ping_msg]
      /\ stdout p' = []
      /\ stderr p' = ["[bridge] Connected to " ++ endpoint ++ LF]
      /\ fetched p' =
           [{| request_url := endpoint;
               request_method := "POST";
               request_headers :=
                 [("Content-Type", "application/json");
                  ("Authorization", "Basic dXNlcjpzZWNyZXQ=")];
               request_body := ping |}].
Proof.
  split; [reflexivity|].
  apply (@line_dispatched reference (main (Some endpoint) (Some "secret"))
           ping ping_msg); try reflexivity.
  exists (value (JString "ping")). split; reflexivity.
Defined.
